(** * Analysis job pipeline of the basketball form analyzer

    A shallow embedding of the backend's job pipeline (the Firestore job
    ledger, the analysis routes, the Cloud Tasks worker) and of its pure
    helpers (angle classifier, key-frame selection, category validation),
    followed by the properties proved about them.

    Conventions.
    - A JavaScript [number] that only ever holds an index or a counter is a
      [Z]; the measurements handled by the angle classifier are exact
      rationals [Q] (every finite double is one, and the band constants are
      represented exactly).  What the code computes with [Math.sqrt],
      [Math.acos] or [Math.round] on doubles is left out: [calculateAngle]
      and the rounded [deviation] of the classifier, which no caller
      reads.
    - [undefined] is [None].
    - Asynchronous code is sequential inside one handler, so [await] is
      the bind of a state-and-exception monad over the persisted world. *)

From Stdlib Require Import ZArith QArith Qround Qminmax Qabs Psatz.
From stdpp Require Import gmap strings list fin_maps sorting pretty.

(** ** services/cv/angle_calculator.ts : band classification *)

Module AngleCalculator.

Local Open Scope Q_scope.

Inductive Metric := elbowAngle | kneeFlexion | bodyLean | setPointHeight.

Record Range := { min : Q; max : Q }.

(** [IDEAL_RANGES] (the [unit] strings are display only). *)
Definition IDEAL_RANGES (metric : Metric) : Range :=
  match metric with
  | elbowAngle => {| min := 85; max := 100 |}
  | kneeFlexion => {| min := 30; max := 45 |}
  | bodyLean => {| min := -5; max := 5 |}
  | setPointHeight => {| min := 1; max := 3 # 2 |}
  end.

Inductive Status := good | close | needs_work.

(** The [deviation] of the source record, a distance rounded to a tenth
    in floating point ([Math.round(deviation * 10) / 10]), is read by no
    caller and is left out of the embedding. *)
Record RangeCheck := { inRange : bool; status : Status }.

(** [value < bound] on numbers that are not NaN. *)
Definition Qlt_bool (a b : Q) : bool := negb (Qle_bool b a).

(** The body of [isInIdealRange] once [range] has been looked up. *)
Definition classifyAgainst (value : Q) (range : Range) : RangeCheck :=
  if Qle_bool (min range) value && Qle_bool value (max range) then
    {| inRange := true; status := good |}
  else
    let deviation :=
      if Qlt_bool value (min range) then min range - value
      else value - max range in
    let rangeSize := max range - min range in
    let closeThreshold := rangeSize * (1 # 2) in
    {| inRange := false;
       status := if Qle_bool deviation closeThreshold then close
                 else needs_work |}.

Definition isInIdealRange (value : Q) (metric : Metric) : RangeCheck :=
  let range := IDEAL_RANGES metric in
  classifyAgainst value range.

End AngleCalculator.

(** ** services/coaching/gemini.ts : the category check *)

Module Gemini.

(** A value produced by [JSON.parse]; the TypeScript cast to
    [CoachingAnalysisResult] checks nothing at run time. *)
Inductive JsValue :=
| JsUndefined
| JsNull
| JsBoolean (b : bool)
| JsNumber (n : Q)
| JsString (s : string)
| JsObject.

Definition validCategories : list string :=
  [ "balance_verticality"; "shot_line_integrity";
    "set_point_consistency"; "release_follow_through" ].

(** [Array.prototype.includes] on an array of strings: only a string equal
    to an element is included. *)
Definition includes (l : list string) (v : JsValue) : bool :=
  match v with
  | JsString s => bool_decide (s ∈ l)
  | _ => false
  end.

(** [CoachingAnalysisResult] as it comes out of [JSON.parse]: the category
    is whatever the model wrote.  The four texts are taken as the
    interface declares them, strings; an answer of the model that lacks
    one of them is outside this record. *)
Record CoachingAnalysisResult :=
  { coachSummary : string;
    primaryFocus : string;
    whyItMatters : string;
    drillRecommendation : string;
    correctionCategory : JsValue }.

(** The tail of [analyzeShootingForm], "Validate correction category":
    the parsed object is patched in place and returned. *)
Definition validateCategory (analysis : CoachingAnalysisResult)
    : CoachingAnalysisResult :=
  if negb (includes validCategories (correctionCategory analysis))
  then {| coachSummary := coachSummary analysis;
          primaryFocus := primaryFocus analysis;
          whyItMatters := whyItMatters analysis;
          drillRecommendation := drillRecommendation analysis;
          correctionCategory := JsString "release_follow_through" |}
  else analysis.

End Gemini.

(** ** services/cv/skeleton_generator.ts : key frame selection *)

Module SkeletonGenerator.

Record KeyFrames := { paths : list (option string); labels : list string }.

(** [arr[i]] for an integer [i]: [undefined] outside [0 .. length-1]. *)
Definition at_index {A} (arr : list A) (i : Z) : option A :=
  if (i <? 0)%Z then None else arr !! Z.to_nat i.

(** [[...new Set(indices)]]: first occurrences, in insertion order. *)
Fixpoint spread_Set (seen indices : list Z) : list Z :=
  match indices with
  | [] => []
  | i :: rest =>
      if bool_decide (i ∈ seen) then spread_Set seen rest
      else i :: spread_Set (i :: seen) rest
  end.

(** [.sort((a, b) => a - b)] *)
Definition sort_ascending (l : list Z) : list Z := merge_sort Z.le l.

Definition selectKeySkeletonFrames
    (allPaths : list string) (releaseFrame : Z) : KeyFrames :=
  if bool_decide (length allPaths = 0%nat) then {| paths := []; labels := [] |}
  else if bool_decide (length allPaths ≤ 5)%nat then
    let labels := imap (λ i _, "Frame " +:+ pretty (i + 1)%nat) allPaths in
    {| paths := Some <$> allPaths; labels := labels |}
  else
    let totalFrames := Z.of_nat (length allPaths) in
    let indices :=
      [ 0; totalFrames / 4;
        Z.max 0 (releaseFrame - 2);
        releaseFrame;
        Z.min (totalFrames - 1) (releaseFrame + 3) ]%Z in
    let uniqueIndices := sort_ascending (spread_Set [] indices) in
    let paths :=
      (λ i, at_index allPaths (Z.min i (Z.of_nat (length allPaths) - 1)))
        <$> uniqueIndices in
    let labels :=
      take (length uniqueIndices)
        ["Setup"; "Lift"; "Set Point"; "Release"; "Follow-through"] in
    {| paths := paths; labels := labels |}.

End SkeletonGenerator.

(** ** services/firestore.ts : the documents *)

Inductive AnalysisStatus := queued | processing | complete | failed.

Inductive ProgressStage := uploading | extracting_frames | pose | llm | saving.

Inductive AngleHint := side | front.

Record ShootingAnglesMeasurements :=
  { m_elbowAngleAtRelease : Q;
    m_kneeFlexionAtSetPoint : Q;
    m_bodyLean : Q;
    m_setPointHeight : Q }.

Module AnalysisJob.
Record t :=
  { analysisId : string;
    userId : option string;
    deviceId : string;
    status : AnalysisStatus;
    progressStage : option ProgressStage;
    videoPath : option string;
    angleHint : option AngleHint;
    createdAt : Z;
    updatedAt : Z;
    error : option string;
    coachSummary : option string;
    primaryFocus : option string;
    whyItMatters : option string;
    drillRecommendation : option string;
    correctionCategory : option Gemini.JsValue;
    priorReferenceText : option string;
    skeletonFrameUrls : option (list string);
    shootingAngles : option ShootingAnglesMeasurements }.
End AnalysisJob.

Module UserData.
Record t :=
  { deviceId : string;
    userId : option string;
    isPro : bool;
    freeAnalysesUsed : Z;
    freeAnalysesLimit : Z;
    createdAt : Z;
    lastAnalysisAt : option Z }.
End UserData.

Module SessionSummary.
Record t :=
  { sessionId : string;
    userId : option string;
    deviceId : string;
    date : Z;
    primaryFocus : string;
    correctionCategory : Gemini.JsValue;
    improvementNote : option string;
    videoPath : string }.
End SessionSummary.

(** ** The world the handlers run in *)

(** The payload of a Cloud Task ([enqueueAnalysisTask]). *)
Record TaskPayload :=
  { t_analysisId : string;
    t_videoPath : string;
    t_angleHint : option AngleHint;
    t_deviceId : string;
    t_userId : option string }.

(** A node of the worker's local disk: a regular file, or a directory with
    the names of the files in it. *)
Inductive FsNode := File | Dir (entries : list string).

(** [ShootingAngles] of angle_calculator.ts. *)
Inductive Confidence := high | medium | low.

Record ShootingAngles :=
  { elbowAngleAtRelease : Q;
    kneeFlexionAtSetPoint : Q;
    bodyLean : Q;
    setPointHeight : Q;
    releaseFrame : Z;
    confidence : Confidence }.

(** The parameters [processAnalysisTask] passes to [analyzeShootingForm]. *)
Record AnalyzeParams :=
  { p_videoPath : string;
    p_angleHint : option AngleHint;
    p_previousFocus : option string;
    p_sessionsOnFocus : nat;
    p_shootingAngles : option ShootingAngles }.

(** The writes that reach a backing service, in the order they happen.
    The trace is not program state: it records the history the
    properties below speak about. *)
Inductive Event :=
| JobCreated (analysisId : string)
| StatusWritten (analysisId : string) (status : AnalysisStatus)
| UserCreated (docId : string)
| UsageIncremented (docId : string)
| SessionSaved (sessionId : string)
| TaskEnqueued (analysisId : string).

Record World :=
  { analyses : gmap string AnalysisJob.t;
    users : gmap string UserData.t;
    sessions : gmap string SessionSummary.t;
    tasks : list TaskPayload;
    disk : gmap string FsNode;
    clock : Z;
    (** the fate of the coming Firestore requests: [true] fails one *)
    faults : list bool;
    trace : list Event;
    llmCalls : list AnalyzeParams }.

Definition set_analyses (f : gmap string AnalysisJob.t → gmap string AnalysisJob.t)
    (w : World) : World :=
  {| analyses := f (analyses w); users := users w; sessions := sessions w;
     tasks := tasks w; disk := disk w; clock := clock w; faults := faults w;
     trace := trace w; llmCalls := llmCalls w |}.

Definition set_users (f : gmap string UserData.t → gmap string UserData.t)
    (w : World) : World :=
  {| analyses := analyses w; users := f (users w); sessions := sessions w;
     tasks := tasks w; disk := disk w; clock := clock w; faults := faults w;
     trace := trace w; llmCalls := llmCalls w |}.

Definition set_sessions
    (f : gmap string SessionSummary.t → gmap string SessionSummary.t)
    (w : World) : World :=
  {| analyses := analyses w; users := users w; sessions := f (sessions w);
     tasks := tasks w; disk := disk w; clock := clock w; faults := faults w;
     trace := trace w; llmCalls := llmCalls w |}.

Definition set_tasks (f : list TaskPayload → list TaskPayload) (w : World) : World :=
  {| analyses := analyses w; users := users w; sessions := sessions w;
     tasks := f (tasks w); disk := disk w; clock := clock w; faults := faults w;
     trace := trace w; llmCalls := llmCalls w |}.

Definition set_disk (f : gmap string FsNode → gmap string FsNode) (w : World) : World :=
  {| analyses := analyses w; users := users w; sessions := sessions w;
     tasks := tasks w; disk := f (disk w); clock := clock w; faults := faults w;
     trace := trace w; llmCalls := llmCalls w |}.

Definition set_clock (c : Z) (w : World) : World :=
  {| analyses := analyses w; users := users w; sessions := sessions w;
     tasks := tasks w; disk := disk w; clock := c; faults := faults w;
     trace := trace w; llmCalls := llmCalls w |}.

Definition set_faults (fs : list bool) (w : World) : World :=
  {| analyses := analyses w; users := users w; sessions := sessions w;
     tasks := tasks w; disk := disk w; clock := clock w; faults := fs;
     trace := trace w; llmCalls := llmCalls w |}.

Definition record (e : Event) (w : World) : World :=
  {| analyses := analyses w; users := users w; sessions := sessions w;
     tasks := tasks w; disk := disk w; clock := clock w; faults := faults w;
     trace := trace w ++ [e]; llmCalls := llmCalls w |}.

Definition record_call (p : AnalyzeParams) (w : World) : World :=
  {| analyses := analyses w; users := users w; sessions := sessions w;
     tasks := tasks w; disk := disk w; clock := clock w; faults := faults w;
     trace := trace w; llmCalls := llmCalls w ++ [p] |}.

(** ** Thrown values and the monad of [async] code *)

Inductive JsError :=
| ErrorObj (message : string)
  (** [createError(message, code, statusCode)] of middleware/errorHandler *)
| ApiError (message code : string) (statusCode : nat)
  (** a thrown value that is not an [Error] *)
| NonError.

Inductive Outcome (A : Type) :=
| Ok (a : A)
| Throw (e : JsError).
Arguments Ok {A} a.
Arguments Throw {A} e.

Definition M (A : Type) : Type := World → Outcome A * World.

Definition ret {A} (a : A) : M A := λ w, (Ok a, w).

Definition throw {A} (e : JsError) : M A := λ w, (Throw e, w).

Definition bind {A B} (m : M A) (k : A → M B) : M B :=
  λ w, match m w with
       | (Ok a, w1) => k a w1
       | (Throw e, w1) => (Throw e, w1)
       end.

(** [try { m } catch (e) { h e }] *)
Definition try_catch {A} (m : M A) (h : JsError → M A) : M A :=
  λ w, match m w with
       | (Ok a, w1) => (Ok a, w1)
       | (Throw e, w1) => h e w1
       end.

Definition modify (f : World → World) : M unit := λ w, (Ok tt, f w).

Definition get {A} (f : World → A) : M A := λ w, (Ok (f w), w).

Declare Scope js_scope.
Delimit Scope js_scope with js.
Notation "'let!' x ':=' m 'in' k" := (bind m (λ x, k))
  (at level 10, x pattern, m at level 100, k at level 200) : js_scope.
Notation "m '>>' k" := (bind m (λ _, k))
  (at level 100, k at level 200, right associativity) : js_scope.
Local Open Scope js_scope.

(** [Timestamp.now()]: a clock that moves at every reading. *)
Definition now : M Z := λ w, (Ok (clock w), set_clock (clock w + 1) w).

(** One round trip to Firestore; it may be unavailable. *)
Definition request : M unit :=
  λ w, let w' := set_faults (tail (faults w)) w in
       match head (faults w) with
       | Some true => (Throw (ErrorObj "UNAVAILABLE"), w')
       | _ => (Ok tt, w')
       end.

(** JavaScript truthiness of an optional string. *)
Definition truthy (s : option string) : bool :=
  match s with
  | Some s => negb (bool_decide (s = ""))
  | None => false
  end.

(** [a || b] on an optional and a plain string. *)
Definition or_else (a : option string) (b : string) : string :=
  match a with
  | Some s => if bool_decide (s = "") then b else s
  | None => b
  end.

(** A defined property replaces the stored one; an [undefined] one is
    ignored ([ignoreUndefinedProperties]). *)
Definition merge_field {A} (new old : option A) : option A :=
  match new with
  | Some v => Some v
  | None => old
  end.

(** ** services/firestore.ts : the operations *)

Definition createAnalysisJob (analysisId deviceId : string)
    (userId : option string) (angleHint : option AngleHint)
    (videoPath : string) : M AnalysisJob.t :=
  let! now := now in
  let job :=
    {| AnalysisJob.analysisId := analysisId;
       AnalysisJob.userId := userId;
       AnalysisJob.deviceId := deviceId;
       AnalysisJob.status := queued;
       AnalysisJob.progressStage := None;
       AnalysisJob.videoPath := Some videoPath;
       AnalysisJob.angleHint := angleHint;
       AnalysisJob.createdAt := now;
       AnalysisJob.updatedAt := now;
       AnalysisJob.error := None;
       AnalysisJob.coachSummary := None;
       AnalysisJob.primaryFocus := None;
       AnalysisJob.whyItMatters := None;
       AnalysisJob.drillRecommendation := None;
       AnalysisJob.correctionCategory := None;
       AnalysisJob.priorReferenceText := None;
       AnalysisJob.skeletonFrameUrls := None;
       AnalysisJob.shootingAngles := None |} in
  request >>
  modify (set_analyses (insert analysisId job)) >>
  modify (record (JobCreated analysisId)) >>
  ret job.

(** What [.update(updates)] of [updateAnalysisStatus] does to the stored
    document. *)
Definition applyStatusUpdate (status : AnalysisStatus)
    (progressStage : option ProgressStage) (updatedAt : Z)
    (error : option string) (j : AnalysisJob.t) : AnalysisJob.t :=
  {| AnalysisJob.analysisId := AnalysisJob.analysisId j;
     AnalysisJob.userId := AnalysisJob.userId j;
     AnalysisJob.deviceId := AnalysisJob.deviceId j;
     AnalysisJob.status := status;
     AnalysisJob.progressStage :=
       merge_field progressStage (AnalysisJob.progressStage j);
     AnalysisJob.videoPath := AnalysisJob.videoPath j;
     AnalysisJob.angleHint := AnalysisJob.angleHint j;
     AnalysisJob.createdAt := AnalysisJob.createdAt j;
     AnalysisJob.updatedAt := updatedAt;
     AnalysisJob.error :=
       if truthy error then error else AnalysisJob.error j;
     AnalysisJob.coachSummary := AnalysisJob.coachSummary j;
     AnalysisJob.primaryFocus := AnalysisJob.primaryFocus j;
     AnalysisJob.whyItMatters := AnalysisJob.whyItMatters j;
     AnalysisJob.drillRecommendation := AnalysisJob.drillRecommendation j;
     AnalysisJob.correctionCategory := AnalysisJob.correctionCategory j;
     AnalysisJob.priorReferenceText := AnalysisJob.priorReferenceText j;
     AnalysisJob.skeletonFrameUrls := AnalysisJob.skeletonFrameUrls j;
     AnalysisJob.shootingAngles := AnalysisJob.shootingAngles j |}.

(** [DocumentReference.update] on the analyses collection: rejected when
    the document does not exist, otherwise the fields are written as they
    are given. *)
Definition updateAnalysisDoc (analysisId : string)
    (f : AnalysisJob.t → AnalysisJob.t) : M unit :=
  request >>
  let! doc := get (λ w, analyses w !! analysisId) in
  match doc with
  | None => throw (ErrorObj "NOT_FOUND")
  | Some j =>
      modify (set_analyses (insert analysisId (f j))) >>
      modify (record (StatusWritten analysisId (AnalysisJob.status (f j))))
  end.

Definition updateAnalysisStatus (analysisId : string) (status : AnalysisStatus)
    (progressStage : option ProgressStage) (error : option string) : M unit :=
  let! updatedAt := now in
  updateAnalysisDoc analysisId
    (applyStatusUpdate status progressStage updatedAt error).

Record AnalysisResults :=
  { r_coachSummary : string;
    r_primaryFocus : string;
    r_whyItMatters : string;
    r_drillRecommendation : string;
    r_correctionCategory : Gemini.JsValue;
    r_priorReferenceText : option string;
    r_skeletonFrameUrls : option (list string);
    r_shootingAngles : option ShootingAnglesMeasurements }.

Definition applyResults (results : AnalysisResults) (updatedAt : Z)
    (j : AnalysisJob.t) : AnalysisJob.t :=
  {| AnalysisJob.analysisId := AnalysisJob.analysisId j;
     AnalysisJob.userId := AnalysisJob.userId j;
     AnalysisJob.deviceId := AnalysisJob.deviceId j;
     AnalysisJob.status := complete;
     AnalysisJob.progressStage := AnalysisJob.progressStage j;
     AnalysisJob.videoPath := AnalysisJob.videoPath j;
     AnalysisJob.angleHint := AnalysisJob.angleHint j;
     AnalysisJob.createdAt := AnalysisJob.createdAt j;
     AnalysisJob.updatedAt := updatedAt;
     AnalysisJob.error := AnalysisJob.error j;
     AnalysisJob.coachSummary := Some (r_coachSummary results);
     AnalysisJob.primaryFocus := Some (r_primaryFocus results);
     AnalysisJob.whyItMatters := Some (r_whyItMatters results);
     AnalysisJob.drillRecommendation := Some (r_drillRecommendation results);
     AnalysisJob.correctionCategory := Some (r_correctionCategory results);
     AnalysisJob.priorReferenceText :=
       merge_field (r_priorReferenceText results)
         (AnalysisJob.priorReferenceText j);
     AnalysisJob.skeletonFrameUrls :=
       merge_field (r_skeletonFrameUrls results)
         (AnalysisJob.skeletonFrameUrls j);
     AnalysisJob.shootingAngles :=
       merge_field (r_shootingAngles results) (AnalysisJob.shootingAngles j) |}.

Definition saveAnalysisResults (analysisId : string)
    (results : AnalysisResults) : M unit :=
  let! updatedAt := now in
  updateAnalysisDoc analysisId (applyResults results updatedAt).

Definition getAnalysisJob (analysisId : string) : M (option AnalysisJob.t) :=
  request >>
  get (λ w, analyses w !! analysisId).

Definition getOrCreateUserData (deviceId : string) (userId : option string)
    : M UserData.t :=
  let docId := or_else userId deviceId in
  request >>
  let! doc := get (λ w, users w !! docId) in
  match doc with
  | Some data => ret data
  | None =>
      let! createdAt := now in
      let userData :=
        {| UserData.deviceId := deviceId;
           UserData.userId := userId;
           UserData.isPro := false;
           UserData.freeAnalysesUsed := 0;
           UserData.freeAnalysesLimit := 1;
           UserData.createdAt := createdAt;
           UserData.lastAnalysisAt := None |} in
      request >>
      modify (set_users (insert docId userData)) >>
      modify (record (UserCreated docId)) >>
      ret userData
  end.

Definition applyIncrement (lastAnalysisAt : Z) (u : UserData.t) : UserData.t :=
  {| UserData.deviceId := UserData.deviceId u;
     UserData.userId := UserData.userId u;
     UserData.isPro := UserData.isPro u;
     UserData.freeAnalysesUsed := UserData.freeAnalysesUsed u + 1;
     UserData.freeAnalysesLimit := UserData.freeAnalysesLimit u;
     UserData.createdAt := UserData.createdAt u;
     UserData.lastAnalysisAt := Some lastAnalysisAt |}.

Definition incrementFreeAnalysesUsed (deviceId : string)
    (userId : option string) : M unit :=
  let docId := or_else userId deviceId in
  let! lastAnalysisAt := now in
  request >>
  let! doc := get (λ w, users w !! docId) in
  match doc with
  | None => throw (ErrorObj "NOT_FOUND")
  | Some u =>
      modify (set_users (insert docId (applyIncrement lastAnalysisAt u))) >>
      modify (record (UsageIncremented docId))
  end.

Definition saveSession (sessionId deviceId : string) (userId : option string)
    (primaryFocus : string) (correctionCategory : Gemini.JsValue)
    (videoPath : string) : M unit :=
  let! date := now in
  let session :=
    {| SessionSummary.sessionId := sessionId;
       SessionSummary.deviceId := deviceId;
       SessionSummary.userId := userId;
       SessionSummary.date := date;
       SessionSummary.primaryFocus := primaryFocus;
       SessionSummary.correctionCategory := correctionCategory;
       SessionSummary.improvementNote := None;
       SessionSummary.videoPath := videoPath |} in
  request >>
  modify (set_sessions (insert sessionId session)) >>
  modify (record (SessionSaved sessionId)).

(** [orderBy("date", "desc")]: the later session first. *)
Definition newer_first (a b : SessionSummary.t) : Prop :=
  (SessionSummary.date b ≤ SessionSummary.date a)%Z.

Global Instance newer_first_dec a b : Decision (newer_first a b).
Proof. unfold newer_first. apply _. Defined.

(** The query of [getUserSessions] on a snapshot of the collection;
    [userId] is not part of it. *)
Definition sessionsQuery (docs : gmap string SessionSummary.t)
    (deviceId : string) (limit : nat) : list SessionSummary.t :=
  take limit
    (merge_sort newer_first
       (filter (λ s, SessionSummary.deviceId s = deviceId)
               (snd <$> map_to_list docs))).

Definition getUserSessions (deviceId : string) (userId : option string)
    (limit : nat) : M (list SessionSummary.t) :=
  request >>
  get (λ w, sessionsQuery (sessions w) deviceId limit).

(** ** The collaborators of one worker run

    What the services outside the repository answer during one run of the
    worker: Cloud Storage, the frame extractor (services/cv/video), the
    MediaPipe process and the Gemini models. *)

Inductive GeminiOutcome :=
| BothModelsFail
| NoJsonInResponse
| MalformedJson (message : string)
| ParsedJson (analysis : Gemini.CoachingAnalysisResult).

Record PoseAnalysisResult :=
  { framesAnalyzed : nat;
    totalFrames : nat;
    pr_shootingAngles : ShootingAngles;
    skeletonFramePaths : list string }.

Record Collaborators :=
  { (** the value of [uuidv4()] naming the local video *)
    uuid : string;
    (** [bucket.file(videoPath).download] *)
    download : Outcome unit;
    (** [extractShootingFrames]: the names of the frames it writes, and
        when it fails the files left in the output directory, if
        [extractFrames] got to create it ([getVideoMetadata] may fail
        before) *)
    extractFrames : Outcome (list string);
    framesLeftOnFailure : option (list string);
    (** the files the MediaPipe process leaves in its output directory,
        if it gets to create it, and how [runMediaPipePose] settles *)
    skeletonFilesWritten : option (list string);
    mediaPipe : Outcome PoseAnalysisResult;
    (** [uploadSkeletonFrames], per frame: the signed URL, or nothing when
        the frame is missing or its upload fails *)
    bucketUpload : string → option string;
    gemini : GeminiOutcome }.

(** ** services/storage.ts and the local disk *)

Definition downloadVideo (videoPath destination : string)
    (c : Collaborators) : M unit :=
  match download c with
  | Ok _ => modify (set_disk (insert destination File))
  | Throw e => throw e
  end.

Definition extractShootingFrames (localVideoPath framesDir : string)
    (c : Collaborators) : M (list string) :=
  match extractFrames c with
  | Ok names =>
      modify (set_disk (insert framesDir (Dir names))) >>
      ret ((λ n, framesDir +:+ "/" +:+ n) <$> names)
  | Throw e =>
      match framesLeftOnFailure c with
      | Some names => modify (set_disk (insert framesDir (Dir names)))
      | None => ret tt
      end >>
      throw e
  end.

Definition runMediaPipePose (framesDir outputDir : string)
    (c : Collaborators) : M PoseAnalysisResult :=
  match skeletonFilesWritten c with
  | Some names => modify (set_disk (insert outputDir (Dir names)))
  | None => ret tt
  end >>
  match mediaPipe c with
  | Ok result => ret result
  | Throw e => throw e
  end.

Definition existsSync (path : string) : M bool :=
  get (λ w, bool_decide (is_Some (disk w !! path))).

Definition unlinkSync (path : string) : M unit :=
  let! node := get (λ w, disk w !! path) in
  match node with
  | Some File => modify (set_disk (delete path))
  | _ => throw (ErrorObj "ENOENT")
  end.

(** [fs.rmSync(path, { recursive: true, force: true })] *)
Definition rmSync (path : string) : M unit :=
  modify (set_disk (delete path)).

Definition readFileSync (path : string) : M unit :=
  let! node := get (λ w, disk w !! path) in
  match node with
  | Some File => ret tt
  | _ => throw (ErrorObj "ENOENT")
  end.

(** ** services/cv/skeleton_generator.ts : upload and clean-up *)

(** An [undefined] path does not exist and is skipped. *)
Definition uploadSkeletonFrames (skeletonPaths : list (option string))
    (analysisId : string) (c : Collaborators) : M (list string) :=
  ret (omap (λ localPath, localPath ≫= bucketUpload c) skeletonPaths).

(** Only a directory can be listed and removed; any failure inside is
    caught and logged. *)
Definition cleanupSkeletonFrames (skeletonDir : string) : M unit :=
  let! node := get (λ w, disk w !! skeletonDir) in
  match node with
  | Some (Dir _) => modify (set_disk (delete skeletonDir))
  | _ => ret tt
  end.

(** ** services/coaching/gemini.ts : [analyzeShootingForm] *)

(** The continuity sentence enters the prompt only for a truthy focus and
    a positive count. *)
Definition continuityContext (p : AnalyzeParams) : option (string * nat) :=
  if truthy (p_previousFocus p) && bool_decide (0 < p_sessionsOnFocus p)%nat
  then (λ f, (f, p_sessionsOnFocus p)) <$> p_previousFocus p
  else None.

Definition analyzeShootingForm (params : AnalyzeParams) (c : Collaborators)
    : M Gemini.CoachingAnalysisResult :=
  modify (record_call params) >>
  readFileSync (p_videoPath params) >>
  match gemini c with
  | BothModelsFail =>
      throw (ErrorObj "Failed to analyze shooting form with Gemini")
  | NoJsonInResponse =>
      throw (ErrorObj "Failed to parse Gemini response as JSON")
  | MalformedJson message => throw (ErrorObj message)
  | ParsedJson analysis => ret (Gemini.validateCategory analysis)
  end.

(** ** services/queue.ts *)

Definition enqueueAnalysisTask (payload : TaskPayload) (createTaskOk : bool)
    : M unit :=
  if createTaskOk then
    modify (set_tasks (λ q, q ++ [payload])) >>
    modify (record (TaskEnqueued (t_analysisId payload)))
  else throw (ErrorObj "Failed to enqueue analysis task").

Definition measurements (a : ShootingAngles) : ShootingAnglesMeasurements :=
  {| m_elbowAngleAtRelease := elbowAngleAtRelease a;
     m_kneeFlexionAtSetPoint := kneeFlexionAtSetPoint a;
     m_bodyLean := bodyLean a;
     m_setPointHeight := setPointHeight a |}.

(** [error instanceof Error ? error.message : "Unknown error"] *)
Definition errorMessage (error : JsError) : string :=
  match error with
  | ErrorObj message => message
  | ApiError message _ _ => message
  | NonError => "Unknown error"
  end.

(** The continuity values computed from the sessions just read. *)
Definition previousFocusOf (sessions : list SessionSummary.t) : option string :=
  SessionSummary.primaryFocus <$> head sessions.

Definition sessionsOnFocusOf (sessions : list SessionSummary.t) : nat :=
  length (filter (λ s, Some (SessionSummary.primaryFocus s)
                       = previousFocusOf sessions) sessions).

(** The pose step with its own [try]/[catch]: the two [let] variables of
    the worker as they stand after it. *)
Definition poseStep (analysisId framesDir skeletonOutputDir : string)
    (c : Collaborators) : M (option ShootingAngles * list string) :=
  try_catch
    (let! poseResult := runMediaPipePose framesDir skeletonOutputDir c in
     let shootingAngles := pr_shootingAngles poseResult in
     let keyFramePaths :=
       SkeletonGenerator.paths
         (SkeletonGenerator.selectKeySkeletonFrames
            (skeletonFramePaths poseResult) (releaseFrame shootingAngles)) in
     if bool_decide (0 < length keyFramePaths)%nat then
       let! skeletonFrameUrls :=
         uploadSkeletonFrames keyFramePaths analysisId c in
       ret (Some shootingAngles, skeletonFrameUrls)
     else ret (Some shootingAngles, []))
    (λ poseError, ret (None, [])).

Definition processAnalysisTask (params : TaskPayload) (c : Collaborators)
    : M unit :=
  let analysisId := t_analysisId params in
  let videoPath := t_videoPath params in
  let angleHint := t_angleHint params in
  let deviceId := t_deviceId params in
  let userId := t_userId params in
  let skeletonOutputDir := "/tmp/" +:+ analysisId +:+ "-skeletons" in
  try_catch
    (updateAnalysisStatus analysisId processing (Some extracting_frames) None >>
     let localVideoPath := "/tmp/" +:+ uuid c +:+ ".mp4" in
     downloadVideo videoPath localVideoPath c >>
     let framesDir := "/tmp/" +:+ analysisId +:+ "-frames" in
     let! framePaths := extractShootingFrames localVideoPath framesDir c in
     updateAnalysisStatus analysisId processing (Some pose) None >>
     let! (shootingAngles, skeletonFrameUrls) :=
       poseStep analysisId framesDir skeletonOutputDir c in
     updateAnalysisStatus analysisId processing (Some llm) None >>
     let! sessions := getUserSessions deviceId userId 5 in
     let previousFocus := previousFocusOf sessions in
     let sessionsOnFocus := sessionsOnFocusOf sessions in
     let! analysis :=
       analyzeShootingForm
         {| p_videoPath := localVideoPath;
            p_angleHint := angleHint;
            p_previousFocus := previousFocus;
            p_sessionsOnFocus := sessionsOnFocus;
            p_shootingAngles := shootingAngles |} c in
     updateAnalysisStatus analysisId processing (Some saving) None >>
     saveAnalysisResults analysisId
       {| r_coachSummary := Gemini.coachSummary analysis;
          r_primaryFocus := Gemini.primaryFocus analysis;
          r_whyItMatters := Gemini.whyItMatters analysis;
          r_drillRecommendation := Gemini.drillRecommendation analysis;
          r_correctionCategory := Gemini.correctionCategory analysis;
          r_priorReferenceText := None;
          r_skeletonFrameUrls := Some skeletonFrameUrls;
          r_shootingAngles := measurements <$> shootingAngles |} >>
     saveSession analysisId deviceId userId
       (Gemini.primaryFocus analysis) (Gemini.correctionCategory analysis)
       videoPath >>
     updateAnalysisStatus analysisId complete None None >>
     unlinkSync localVideoPath >>
     (let! framesExist := existsSync framesDir in
      if framesExist then rmSync framesDir else ret tt) >>
     cleanupSkeletonFrames skeletonOutputDir)
    (λ error,
       try_catch (cleanupSkeletonFrames skeletonOutputDir) (λ _, ret tt) >>
       updateAnalysisStatus analysisId failed None (Some (errorMessage error)) >>
       throw error).

(** ** routes/analysis.ts *)

Inductive Body :=
| ErrorBody (code message : string)
| CreatedBody (analysisId uploadUrl status : string)
| StartBody (status message : string).

Record Response := { statusCode : nat; body : Body }.

Definition json (statusCode : nat) (body : Body) : M Response :=
  ret {| statusCode := statusCode; body := body |}.

(** [createError(message, code, statusCode)] *)
Definition createError (message code : string) (statusCode : nat) : JsError :=
  ApiError message code statusCode.

(** The [catch] shared by the handlers: an error carrying a truthy
    [statusCode] is reported as is, anything else as a 500. *)
Definition handleError (failure : string) (error : JsError) : M Response :=
  match error with
  | ApiError message code (S n) => json (S n) (ErrorBody code message)
  | _ => json 500 (ErrorBody "ANALYSIS_FAILED" failure)
  end.

Definition statusName (s : AnalysisStatus) : string :=
  match s with
  | queued => "queued"
  | processing => "processing"
  | complete => "complete"
  | failed => "failed"
  end.

(** What one [POST /v1/analysis] receives and what the outside answers:
    the parsed body ([None] when the schema rejects it), the identity set
    by the auth middleware, the two fresh uuids, the signed URL. *)
Record CreateRequest :=
  { parsedBody : option (option AngleHint);
    reqDeviceId : option string;
    reqUserId : option string;
    newAnalysisId : string;
    newVideoUuid : string;
    signedUrl : Outcome string }.

(** [generateSignedUploadUrl] of services/storage.ts *)
Definition generateSignedUploadUrl (analysisId : string) (req : CreateRequest)
    : M (string * string) :=
  let videoPath :=
    "videos/" +:+ analysisId +:+ "/" +:+ newVideoUuid req +:+ ".mp4" in
  match signedUrl req with
  | Ok uploadUrl => ret (uploadUrl, videoPath)
  | Throw e => throw e
  end.

(** [router.post("/")] *)
Definition postAnalysis (req : CreateRequest) : M Response :=
  try_catch
    (match parsedBody req with
     | None => throw (createError "Invalid request body" "INVALID_REQUEST" 400)
     | Some angleHint =>
         if negb (truthy (reqDeviceId req)) then
           throw (createError "Device ID required" "UNAUTHORIZED" 401)
         else
           let deviceId := default "" (reqDeviceId req) in
           let userId := reqUserId req in
           let! userData := getOrCreateUserData deviceId userId in
           if negb (UserData.isPro userData)
              && bool_decide (UserData.freeAnalysesLimit userData
                              ≤ UserData.freeAnalysesUsed userData)%Z
           then
             throw (createError
               "Free analyses limit reached. Upgrade to Pro for unlimited access."
               "PAYWALL_REQUIRED" 402)
           else
             let analysisId := newAnalysisId req in
             let! (uploadUrl, videoPath) :=
               generateSignedUploadUrl analysisId req in
             let! _ :=
               createAnalysisJob analysisId deviceId userId angleHint videoPath in
             (if negb (UserData.isPro userData)
              then incrementFreeAnalysesUsed deviceId userId
              else ret tt) >>
             json 201 (CreatedBody analysisId uploadUrl "pending_upload")
     end)
    (handleError "Failed to create analysis job").

(** [router.post("/:id/start")]; [createTaskOk] tells whether Cloud Tasks
    accepts the task.  [job.videoPath!]: every job is created with its
    video path, the empty string stands for a missing one. *)
Definition postAnalysisStart (id : string) (reqDeviceId : option string)
    (createTaskOk : bool) : M Response :=
  try_catch
    (if negb (truthy reqDeviceId) then
       throw (createError "Device ID required" "UNAUTHORIZED" 401)
     else
       let deviceId := default "" reqDeviceId in
       let! job := getAnalysisJob id in
       match job with
       | None => throw (createError "Analysis not found" "NOT_FOUND" 404)
       | Some job =>
           if negb (bool_decide (AnalysisJob.deviceId job = deviceId)) then
             throw (createError "Unauthorized" "UNAUTHORIZED" 403)
           else
             match AnalysisJob.status job with
             | processing | complete =>
                 json 200
                   (StartBody (statusName (AnalysisJob.status job))
                              "Analysis already started")
             | _ =>
                 enqueueAnalysisTask
                   {| t_analysisId := id;
                      t_videoPath := default "" (AnalysisJob.videoPath job);
                      t_angleHint := AnalysisJob.angleHint job;
                      t_deviceId := deviceId;
                      t_userId := AnalysisJob.userId job |} createTaskOk >>
                 json 200 (StartBody "queued" "Analysis started")
             end
       end)
    (handleError "Failed to start analysis").

(** [router.post("/process-analysis")] of the internal routes: a payload
    with a missing field is refused (400); otherwise the worker runs in the
    background and its failure is only logged. *)
Definition postProcessAnalysis (payload : TaskPayload) (c : Collaborators)
    : M unit :=
  if bool_decide (t_analysisId payload = "")
     || bool_decide (t_videoPath payload = "")
     || bool_decide (t_deviceId payload = "")
  then ret tt
  else try_catch (processAnalysisTask payload c) (λ _, ret tt).

(** ** A small world to run the handlers in *)

Definition emptyWorld : World :=
  {| analyses := ∅; users := ∅; sessions := ∅; tasks := []; disk := ∅;
     clock := 0; faults := []; trace := []; llmCalls := [] |}.

Definition sampleAnalysis : Gemini.CoachingAnalysisResult :=
  {| Gemini.coachSummary := "Jump straight up";
     Gemini.primaryFocus := "Jump straight up and down";
     Gemini.whyItMatters := "Balance";
     Gemini.drillRecommendation := "Tape drill";
     Gemini.correctionCategory := Gemini.JsString "balance_verticality" |}.

Definition sampleAngles : ShootingAngles :=
  {| elbowAngleAtRelease := 92; kneeFlexionAtSetPoint := 40; bodyLean := 2;
     setPointHeight := 6 # 5; releaseFrame := 4; confidence := high |}.

Definition sampleCollaborators : Collaborators :=
  {| uuid := "v";
     download := Ok tt;
     extractFrames := Ok ["f1.jpg"; "f2.jpg"];
     framesLeftOnFailure := None;
     skeletonFilesWritten := Some ["s1.jpg"];
     mediaPipe :=
       Ok {| framesAnalyzed := 2; totalFrames := 2;
             pr_shootingAngles := sampleAngles;
             skeletonFramePaths := ["/tmp/J-skeletons/s1.jpg"] |};
     bucketUpload := λ p, Some ("https://signed/" +:+ p);
     gemini := ParsedJson sampleAnalysis |}.

Definition sampleRequest : CreateRequest :=
  {| parsedBody := Some (Some side);
     reqDeviceId := Some "dev";
     reqUserId := None;
     newAnalysisId := "J";
     newVideoUuid := "u";
     signedUrl := Ok "https://upload" |}.

Definition samplePayload : TaskPayload :=
  {| t_analysisId := "J"; t_videoPath := "videos/J/u.mp4";
     t_angleHint := Some side; t_deviceId := "dev"; t_userId := None |}.

(** The world after [sampleRequest] has been served from scratch. *)
Definition createdWorld : World := snd (postAnalysis sampleRequest emptyWorld).

Definition statusOf (id : string) (w : World) : option AnalysisStatus :=
  AnalysisJob.status <$> analyses w !! id.

(** * Properties *)

(** ** The band classifier *)

Section Classifier.

Local Open Scope Q_scope.

(** [classify(value, min, max)] of the specification: the status
    [isInIdealRange] computes against the band [[lo, hi]]. *)
Definition classify (value lo hi : Q) : AngleCalculator.Status :=
  AngleCalculator.status
    (AngleCalculator.classifyAgainst value
       {| AngleCalculator.min := lo; AngleCalculator.max := hi |}).

(** The distance of a value outside [[lo, hi]] to the band, as the
    specification words it: how far it lies below [lo] or above [hi]. *)
Definition distanceOutside (value lo hi : Q) : Q :=
  Qmax (lo - value) (value - hi).

Lemma isInIdealRange_classify value metric :
  AngleCalculator.status (AngleCalculator.isInIdealRange value metric)
  = classify value
      (AngleCalculator.min (AngleCalculator.IDEAL_RANGES metric))
      (AngleCalculator.max (AngleCalculator.IDEAL_RANGES metric)).
Proof. unfold classify, AngleCalculator.isInIdealRange. by destruct metric. Qed.

Lemma Qle_bool_false a b : Qle_bool a b = false ↔ b < a.
Proof.
  rewrite <- not_true_iff_false, Qle_bool_iff. split.
  - apply Qnot_le_lt.
  - apply Qlt_not_le.
Qed.

Lemma distanceOutside_below value lo hi :
  lo <= hi → value < lo → distanceOutside value lo hi == lo - value.
Proof.
  intros Hband Hlt. unfold distanceOutside.
  apply Q.max_l. lra.
Qed.

Lemma distanceOutside_above value lo hi :
  lo <= hi → hi < value → distanceOutside value lo hi == value - hi.
Proof.
  intros Hband Hlt. unfold distanceOutside.
  apply Q.max_r. lra.
Qed.

(** [distanceOutside] is the distance to the nearest point of the band. *)
Lemma distanceOutside_nearest value lo hi :
  lo <= hi → ¬ (lo <= value <= hi) →
  (∀ x, lo <= x <= hi → distanceOutside value lo hi <= Qabs (value - x))
  ∧ (∃ x, lo <= x <= hi ∧ Qabs (value - x) == distanceOutside value lo hi).
Proof.
  intros Hband Hout.
  destruct (Qlt_le_dec value lo) as [Hlo | Hlo].
  - pose proof (distanceOutside_below _ _ _ Hband Hlo) as E. split.
    + intros x [Hx1 Hx2]. apply Qabs_case; intros; lra.
    + exists lo. split; [lra |]. apply Qabs_case; intros; lra.
  - assert (hi < value) as Hhi.
    { apply Qnot_le_lt. intros Hle. apply Hout. by split. }
    pose proof (distanceOutside_above _ _ _ Hband Hhi) as E. split.
    + intros x [Hx1 Hx2]. apply Qabs_case; intros; lra.
    + exists hi. split; [lra |]. apply Qabs_case; intros; lra.
Qed.

(** C7. For every value and band [[lo, hi]], [classify] answers [good]
    exactly when the value lies in the band; outside the band it answers
    [close] exactly when the distance to the band is at most half the width
    of the band, and [needs_work] otherwise.  In particular
    classify(92, 85, 100) = good, classify(80, 85, 100) = close and
    classify(60, 85, 100) = needs_work. *)
Theorem classify_bands (value lo hi : Q) (Hband : lo <= hi) :
  (classify value lo hi = AngleCalculator.good ↔ lo <= value <= hi)
  ∧ (¬ (lo <= value <= hi) →
       (classify value lo hi = AngleCalculator.close
          ↔ distanceOutside value lo hi <= (1 # 2) * (hi - lo))
       ∧ (classify value lo hi = AngleCalculator.needs_work
          ↔ ¬ distanceOutside value lo hi <= (1 # 2) * (hi - lo)))
  ∧ classify 92 85 100 = AngleCalculator.good
  ∧ classify 80 85 100 = AngleCalculator.close
  ∧ classify 60 85 100 = AngleCalculator.needs_work.
Proof.
  assert (Qle_bool lo value && Qle_bool value hi = true ↔ lo <= value <= hi)
    as Hin by (by rewrite andb_true_iff, !Qle_bool_iff).
  unfold classify, AngleCalculator.classifyAgainst.
  cbn [AngleCalculator.min AngleCalculator.max].
  split; [| split; [| by repeat split]].
  - rewrite <- Hin. destruct (Qle_bool lo value && Qle_bool value hi);
      cbn [AngleCalculator.status]; [done |].
    split; [| done]. intros H. by repeat case_match.
  - intros Hout. rewrite <- Hin in Hout. apply not_true_is_false in Hout.
    rewrite Hout. cbn [AngleCalculator.status].
    apply andb_false_iff in Hout. unfold AngleCalculator.Qlt_bool.
    assert (distanceOutside value lo hi
            == if negb (Qle_bool lo value) then lo - value else value - hi) as E.
    { destruct (Qle_bool lo value) eqn:H1; simpl.
      - destruct Hout as [? | H2]; [done |]. apply Qle_bool_false in H2.
        by apply distanceOutside_above.
      - apply Qle_bool_false in H1. by apply distanceOutside_below. }
    destruct (Qle_bool (if negb (Qle_bool lo value) then _ else _) _) eqn:H3.
    + apply Qle_bool_iff in H3.
      split; split; try done; intros; [lra | exfalso; lra].
    + apply Qle_bool_false in H3.
      split; split; try done; intros; lra.
Qed.

Lemma classify_bands_witness :
  85 <= 100
  ∧ (classify 80 85 100 = AngleCalculator.close
       ↔ distanceOutside 80 85 100 <= (1 # 2) * (100 - 85)).
Proof.
  assert (85 <= 100) as Hband by (by vm_compute).
  split; [exact Hband |].
  apply (classify_bands 80 85 100 Hband).
  intros [H _]. by vm_compute in H.
Defined.

End Classifier.

(** ** Key skeleton frames *)

Section KeyFrames.

Lemma spread_Set_length seen indices :
  length (SkeletonGenerator.spread_Set seen indices) ≤ length indices.
Proof.
  revert seen. induction indices as [| i rest IH]; intros seen; simpl.
  - done.
  - case_bool_decide; simpl.
    + etrans; [apply IH | lia].
    + specialize (IH (i :: seen)). lia.
Qed.

Lemma spread_Set_elem seen indices i :
  i ∈ SkeletonGenerator.spread_Set seen indices → i ∈ indices.
Proof.
  revert seen. induction indices as [| k rest IH]; intros seen; simpl.
  - done.
  - case_bool_decide as Hseen.
    + intros Hi. right. by eapply IH.
    + rewrite !elem_of_cons. intros [-> | Hi]; [by left | right; by eapply IH].
Qed.

Lemma sort_ascending_length l :
  length (SkeletonGenerator.sort_ascending l) = length l.
Proof.
  unfold SkeletonGenerator.sort_ascending.
  apply Permutation_length, merge_sort_Permutation.
Qed.

Lemma sort_ascending_elem l i :
  i ∈ SkeletonGenerator.sort_ascending l ↔ i ∈ l.
Proof.
  unfold SkeletonGenerator.sort_ascending.
  by rewrite merge_sort_Permutation.
Qed.

Lemma at_index_in_bounds {A} (arr : list A) (i : Z) :
  (0 ≤ i < Z.of_nat (length arr))%Z →
  ∃ a, SkeletonGenerator.at_index arr i = Some a ∧ a ∈ arr.
Proof.
  intros [Hlo Hhi]. unfold SkeletonGenerator.at_index.
  destruct (Z.ltb_spec i 0) as [? | _]; [lia |].
  destruct (lookup_lt_is_Some_2 arr (Z.to_nat i)) as [a Ha]; [lia |].
  exists a. split; [done |]. by eapply list_elem_of_lookup_2.
Qed.

(** With a release index that is not negative the selection stays in
    bounds: at most five paths, all taken from the input, one label per
    path, and the whole list when it has five elements or fewer. *)
Lemma selectKeySkeletonFrames_in_bounds (allPaths : list string)
    (releaseFrame : Z) :
  let r := SkeletonGenerator.selectKeySkeletonFrames allPaths releaseFrame in
  length (SkeletonGenerator.paths r) ≤ 5
  ∧ length (SkeletonGenerator.labels r) = length (SkeletonGenerator.paths r)
  ∧ (length allPaths ≤ 5 → SkeletonGenerator.paths r = Some <$> allPaths)
  ∧ ((0 ≤ releaseFrame)%Z →
       ∀ p, p ∈ SkeletonGenerator.paths r → ∃ s, p = Some s ∧ s ∈ allPaths).
Proof.
  unfold SkeletonGenerator.selectKeySkeletonFrames.
  case_bool_decide as Hempty.
  { apply length_zero_iff_nil in Hempty as ->. simpl.
    repeat split; [lia | by intros _ p ?%elem_of_nil]. }
  case_bool_decide as Hsmall;
    cbn [SkeletonGenerator.paths SkeletonGenerator.labels].
  { rewrite length_imap, length_fmap. repeat split; [done |].
    intros _ p (s & -> & Hs)%list_elem_of_fmap. by exists s. }
  set (n := Z.of_nat (length allPaths)).
  set (indices := [0; n / 4; Z.max 0 (releaseFrame - 2); releaseFrame;
                   Z.min (n - 1) (releaseFrame + 3)]%Z).
  set (unique := SkeletonGenerator.sort_ascending
                   (SkeletonGenerator.spread_Set [] indices)).
  assert (length unique ≤ 5) as Hlen.
  { unfold unique. rewrite sort_ascending_length.
    etrans; [apply spread_Set_length | done]. }
  rewrite length_fmap, length_take.
  change (length ["Setup"; "Lift"; "Set Point"; "Release"; "Follow-through"])
    with 5.
  fold n indices unique.
  repeat split; [done | lia | lia |].
  intros Hrel p (i & -> & Hi)%list_elem_of_fmap.
  apply sort_ascending_elem, spread_Set_elem in Hi.
  apply at_index_in_bounds. fold n.
  assert (5 < n)%Z by lia.
  assert (0 ≤ i)%Z; [| lia].
  unfold indices in Hi. rewrite !elem_of_cons in Hi.
  destruct Hi as [-> | [-> | [-> | [-> | [-> | []%elem_of_nil]]]]];
    try lia.
  apply Z.div_pos; lia.
Qed.

(** C10. Six annotated frames with the release index -1: the unclamped
    index -1 is kept, [allPaths[-1]] is read, and the first of the four
    paths returned is [undefined] instead of an element of the input. *)
Theorem selectKeySkeletonFrames_negative_release :
  SkeletonGenerator.selectKeySkeletonFrames
    ["f0.jpg"; "f1.jpg"; "f2.jpg"; "f3.jpg"; "f4.jpg"; "f5.jpg"] (-1)
  = {| SkeletonGenerator.paths :=
         [None; Some "f0.jpg"; Some "f1.jpg"; Some "f2.jpg"];
       SkeletonGenerator.labels :=
         ["Setup"; "Lift"; "Set Point"; "Release"] |}.
Proof. by vm_compute. Qed.

End KeyFrames.

(** ** The category check *)

Section Category.



End Category.

(** ** Reasoning about handlers *)

Section Post.

(** [post m w Q]: running [m] from [w] ends in an outcome and a world
    that satisfy [Q]. *)
Definition post {A} (m : M A) (w : World) (Q : Outcome A → World → Prop)
    : Prop :=
  Q (m w).1 (m w).2.

Lemma post_ret {A} (a : A) w Q : Q (Ok a) w → post (ret a) w Q.
Proof. done. Qed.

Lemma post_throw {A} e w (Q : Outcome A → World → Prop) :
  Q (Throw e) w → post (throw e) w Q.
Proof. done. Qed.

Lemma post_bind {A B} (m : M A) (k : A → M B) w Q :
  post m w (λ o w1, match o with
                    | Ok a => post (k a) w1 Q
                    | Throw e => Q (Throw e) w1
                    end) →
  post (bind m k) w Q.
Proof. unfold post, bind. by destruct (m w) as [[a | e] w1]. Qed.

Lemma post_try_catch {A} (m : M A) (h : JsError → M A) w Q :
  post m w (λ o w1, match o with
                    | Ok a => Q (Ok a) w1
                    | Throw e => post (h e) w1 Q
                    end) →
  post (try_catch m h) w Q.
Proof. unfold post, try_catch. by destruct (m w) as [[a | e] w1]. Qed.

Lemma post_modify f w Q : Q (Ok tt) (f w) → post (modify f) w Q.
Proof. done. Qed.

Lemma post_get {A} (f : World → A) w Q : Q (Ok (f w)) w → post (get f) w Q.
Proof. done. Qed.

Lemma post_now w Q :
  Q (Ok (clock w)) (set_clock (clock w + 1) w) → post now w Q.
Proof. done. Qed.

Lemma post_request w Q :
  (head (faults w) = Some true →
     Q (Throw (ErrorObj "UNAVAILABLE")) (set_faults (tail (faults w)) w)) →
  (head (faults w) ≠ Some true →
     Q (Ok tt) (set_faults (tail (faults w)) w)) →
  post request w Q.
Proof.
  intros Hfault Hok. unfold post, request.
  destruct (head (faults w)) as [[|] |] eqn:E; simpl; auto.
Qed.

Lemma post_mono {A} (m : M A) w (Q Q' : Outcome A → World → Prop) :
  post m w Q → (∀ o w1, Q o w1 → Q' o w1) → post m w Q'.
Proof. unfold post. auto. Qed.

End Post.

(** One step of symbolic execution. *)
Ltac post_step :=
  lazymatch goal with
  | |- post (bind _ _) _ _ => apply post_bind
  | |- post (try_catch _ _) _ _ => apply post_try_catch
  | |- post (ret _) _ _ => apply post_ret
  | |- post (throw _) _ _ => apply post_throw
  | |- post (modify _) _ _ => apply post_modify
  | |- post (get _) _ _ => apply post_get
  | |- post now _ _ => apply post_now
  | |- post request _ _ => apply post_request; intros ?
  | |- post (json _ _) _ _ => apply post_ret
  end; cbv beta iota.

(** Projections of an updated world. *)
Ltac world_simpl :=
  cbn [analyses users sessions tasks disk clock faults trace llmCalls
       set_analyses set_users set_sessions set_tasks set_disk set_clock
       set_faults record record_call fst snd] in *.

(** A branch of the program: use what is known about the value branched
    on, or consider every case. *)
Ltac post_case :=
  lazymatch goal with
  | |- post (match ?x with _ => _ end) _ _ =>
      first [ progress world_simpl
            | match goal with H : x = _ |- _ => rewrite H end
            | rewrite lookup_insert_eq
            | destruct x eqn:? ]
  end.

(** State a goal about [(m w).1] and [(m w).2] as a [post]. *)
Ltac as_post m w :=
  pattern (m w).1, (m w).2;
  lazymatch goal with
  | |- ?Q _ _ => change (post m w Q)
  end.

(** ** Worlds used in the examples *)

(** The coaching collaborator fails: both Gemini models throw. *)
Definition geminiDown : Collaborators :=
  {| uuid := uuid sampleCollaborators;
     download := download sampleCollaborators;
     extractFrames := extractFrames sampleCollaborators;
     framesLeftOnFailure := None;
     skeletonFilesWritten := skeletonFilesWritten sampleCollaborators;
     mediaPipe := mediaPipe sampleCollaborators;
     bucketUpload := bucketUpload sampleCollaborators;
     gemini := BothModelsFail |}.

(** Job J after a run that succeeds, and after a run whose coaching call
    fails. *)
Definition completedWorld : World :=
  snd (processAnalysisTask samplePayload sampleCollaborators createdWorld).

Definition failedWorld : World :=
  snd (processAnalysisTask samplePayload geminiDown createdWorld).

(** The statuses written to one job, oldest first. *)
Definition statusWrites (id : string) (events : list Event)
    : list AnalysisStatus :=
  omap (λ e, match e with
             | StatusWritten i s => if bool_decide (i = id) then Some s else None
             | _ => None
             end) events.

(** ** Starting a job *)

Section Start.

Lemma truthy_Some s : truthy (Some s) = true ↔ s ≠ "".
Proof.
  unfold truthy. rewrite negb_true_iff, bool_decide_eq_false. done.
Qed.

(** The start route writes nothing but the task queue. *)
Lemma postAnalysisStart_ledger id dev ok w :
  let w' := snd (postAnalysisStart id dev ok w) in
  analyses w' = analyses w ∧ users w' = users w ∧ sessions w' = sessions w.
Proof.
  intros w'. subst w'. as_post (postAnalysisStart id dev ok) w.
  unfold postAnalysisStart, getAnalysisJob, enqueueAnalysisTask, handleError.
  repeat (first [ post_step | post_case ]); done.
Qed.

(** C2, as the route implements it. A start call for a job that is
    [processing] or [complete] answers with that status and the message
    "Analysis already started", and leaves the queue, the ledger and the
    trace of writes as they were.  For a job that is [queued] or [failed]
    each start call accepted by Cloud Tasks appends one task to the queue
    and answers "queued"; the job record is not touched either way. *)
Theorem postAnalysisStart_guard (id dev : string) (job : AnalysisJob.t)
    (w : World)
    (Hdev : dev ≠ "")
    (Hjob : analyses w !! id = Some job)
    (Hown : AnalysisJob.deviceId job = dev)
    (Hup : head (faults w) ≠ Some true) :
  ∀ createTaskOk,
    let r := postAnalysisStart id (Some dev) createTaskOk w in
    analyses r.2 = analyses w
    ∧ (AnalysisJob.status job = processing ∨ AnalysisJob.status job = complete →
         r.1 = Ok {| statusCode := 200;
                     body := StartBody (statusName (AnalysisJob.status job))
                                       "Analysis already started" |}
         ∧ tasks r.2 = tasks w ∧ trace r.2 = trace w)
    ∧ (AnalysisJob.status job = queued ∨ AnalysisJob.status job = failed →
         createTaskOk = true →
         r.1 = Ok {| statusCode := 200;
                     body := StartBody "queued" "Analysis started" |}
         ∧ tasks r.2
           = tasks w ++ [ {| t_analysisId := id;
                             t_videoPath := default "" (AnalysisJob.videoPath job);
                             t_angleHint := AnalysisJob.angleHint job;
                             t_deviceId := dev;
                             t_userId := AnalysisJob.userId job |} ]
         ∧ trace r.2 = trace w ++ [TaskEnqueued id]).
Proof.
  intros ok r. split; [apply postAnalysisStart_ledger |].
  apply truthy_Some in Hdev. subst r.
  as_post (postAnalysisStart id (Some dev) ok) w.
  unfold postAnalysisStart, getAnalysisJob, enqueueAnalysisTask, handleError.
  rewrite Hdev. cbn [negb default].
  do 4 post_step; [done |].
  post_step. world_simpl. rewrite Hjob.
  rewrite bool_decide_eq_true_2 by done. cbn [negb].
  destruct (AnalysisJob.status job) eqn:Hst; destruct ok;
    repeat (first [ post_step | post_case ]);
    (split; [intros [? | ?] | intros [? | ?] ?]); done.
Qed.

Lemma postAnalysisStart_guard_witness :
  (postAnalysisStart "J" (Some "dev") true completedWorld).1
  = Ok {| statusCode := 200;
          body := StartBody "complete" "Analysis already started" |}.
Proof.
  assert ("dev" ≠ "") as Hdev by done.
  assert (∃ job, analyses completedWorld !! "J" = Some job
                 ∧ AnalysisJob.deviceId job = "dev"
                 ∧ AnalysisJob.status job = complete) as (job & Hjob & Hown & Hst).
  { eexists. split; [by vm_compute |]. by vm_compute. }
  assert (head (faults completedWorld) ≠ Some true) as Hup by (by vm_compute).
  pose proof (postAnalysisStart_guard "J" "dev" job completedWorld
                Hdev Hjob Hown Hup true) as (_ & Hstarted & _).
  destruct (Hstarted (or_intror Hst)) as (Hresp & _).
  rewrite Hresp, Hst. reflexivity.
Defined.

(** The claim of C2 fails on a job that is [failed], a status beyond
    [queued]: the start route enqueues a second worker task for it and
    answers "queued" instead of the current status. *)
Lemma postAnalysisStart_failed_job_counterexample :
  statusOf "J" failedWorld = Some failed
  ∧ tasks failedWorld = []
  ∧ (postAnalysisStart "J" (Some "dev") true failedWorld).1
    = Ok {| statusCode := 200;
            body := StartBody "queued" "Analysis started" |}
  ∧ tasks (postAnalysisStart "J" (Some "dev") true failedWorld).2
    = [samplePayload].
Proof. by vm_compute. Qed.

End Start.

(** ** Creating a job behind the entitlement gate *)

Section Create.

(** A successful read of the entitlement leaves the record read in the
    store; when the record existed, nothing was written. *)
Lemma getOrCreateUserData_read deviceId userId w u :
  (getOrCreateUserData deviceId userId w).1 = Ok u →
  let w1 := (getOrCreateUserData deviceId userId w).2 in
  let docId := or_else userId deviceId in
  users w1 !! docId = Some u
  ∧ analyses w1 = analyses w
  ∧ (users w !! docId = Some u ∧ users w1 = users w ∧ trace w1 = trace w
     ∨ users w !! docId = None
       ∧ UserData.freeAnalysesUsed u = 0%Z ∧ UserData.freeAnalysesLimit u = 1%Z).
Proof.
  intros Hread w1 docId. subst w1. revert Hread.
  as_post (getOrCreateUserData deviceId userId) w.
  unfold getOrCreateUserData. fold docId.
  repeat (first [ post_step | post_case ]); world_simpl;
    try done; intros [= <-].
  - split; [done |]. split; [done |]. by left.
  - rewrite lookup_insert_eq. split; [done |]. split; [done |]. by right.
Qed.

(** C3, as the route implements it. The owner's request is well formed
    and the gate reads the entitlement [u] of an owner who is not pro.  If
    the free limit is used up, the answer is 402 PAYWALL_REQUIRED and
    nothing is written: no job record, no user record, no event.
    Otherwise every run ends with 201, after the job record was written
    with status [queued] and then, as the last write, the usage counter
    was raised by exactly one; or with an error answer, with the counter
    as the gate read it and the job record written at most.  Once the
    upload URL is signed and Firestore takes the job record, the run ends
    with 201 if Firestore also takes the write of the counter; if it
    refuses it, the answer is 500, the job record stays and the counter
    is as the gate read it. *)
Theorem postAnalysis_gate_job_then_count (req : CreateRequest) (w : World)
    (angleHint : option AngleHint) (u : UserData.t)
    (Hbody : parsedBody req = Some angleHint)
    (Hdev : truthy (reqDeviceId req) = true)
    (Hread : (getOrCreateUserData (default "" (reqDeviceId req))
                (reqUserId req) w).1 = Ok u)
    (Hfree : UserData.isPro u = false) :
  let docId := or_else (reqUserId req) (default "" (reqDeviceId req)) in
  let w1 := (getOrCreateUserData (default "" (reqDeviceId req))
               (reqUserId req) w).2 in
  let r := postAnalysis req w in
  ((UserData.freeAnalysesLimit u ≤ UserData.freeAnalysesUsed u)%Z →
     r.1 = Ok {| statusCode := 402;
                 body := ErrorBody "PAYWALL_REQUIRED"
                   "Free analyses limit reached. Upgrade to Pro for unlimited access." |}
     ∧ analyses r.2 = analyses w ∧ users r.2 = users w ∧ trace r.2 = trace w)
  ∧ ((UserData.freeAnalysesUsed u < UserData.freeAnalysesLimit u)%Z →
       ((∃ uploadUrl,
          r.1 = Ok {| statusCode := 201;
                      body := CreatedBody (newAnalysisId req) uploadUrl
                                          "pending_upload" |}
          ∧ trace r.2 = trace w1 ++ [ JobCreated (newAnalysisId req);
                                      UsageIncremented docId ]
          ∧ statusOf (newAnalysisId req) r.2 = Some queued
          ∧ UserData.freeAnalysesUsed <$> users r.2 !! docId
            = Some (UserData.freeAnalysesUsed u + 1)%Z)
        ∨ ((∃ statusCode code message,
              r.1 = Ok {| statusCode := statusCode;
                          body := ErrorBody code message |})
           ∧ users r.2 = users w1
           ∧ (trace r.2 = trace w1 ∧ analyses r.2 = analyses w1
              ∨ trace r.2 = trace w1 ++ [JobCreated (newAnalysisId req)])))
       ∧ ∀ uploadUrl,
           signedUrl req = Ok uploadUrl →
           head (faults w1) ≠ Some true →
           (head (tail (faults w1)) ≠ Some true →
            r.1 = Ok {| statusCode := 201;
                        body := CreatedBody (newAnalysisId req) uploadUrl
                                            "pending_upload" |}
            ∧ trace r.2 = trace w1 ++ [ JobCreated (newAnalysisId req);
                                        UsageIncremented docId ]
            ∧ statusOf (newAnalysisId req) r.2 = Some queued
            ∧ UserData.freeAnalysesUsed <$> users r.2 !! docId
              = Some (UserData.freeAnalysesUsed u + 1)%Z)
           ∧ (head (tail (faults w1)) = Some true →
              r.1 = Ok {| statusCode := 500;
                          body := ErrorBody "ANALYSIS_FAILED"
                                    "Failed to create analysis job" |}
              ∧ trace r.2 = trace w1 ++ [JobCreated (newAnalysisId req)]
              ∧ statusOf (newAnalysisId req) r.2 = Some queued
              ∧ users r.2 = users w1)).
Proof.
  intros docId w1 r.
  destruct (getOrCreateUserData_read _ _ _ _ Hread) as (Hu & Hjobs & Hwas).
  fold w1 docId in Hu, Hjobs, Hwas.
  assert (r = try_catch
            (let! _ := (λ _ : World, (Ok u, w1)) in
             if negb (UserData.isPro u)
                && bool_decide (UserData.freeAnalysesLimit u
                                ≤ UserData.freeAnalysesUsed u)%Z
             then
               throw (createError
                 "Free analyses limit reached. Upgrade to Pro for unlimited access."
                 "PAYWALL_REQUIRED" 402)
             else
               let analysisId := newAnalysisId req in
               let! (uploadUrl, videoPath) :=
                 generateSignedUploadUrl analysisId req in
               let! _ :=
                 createAnalysisJob analysisId (default "" (reqDeviceId req))
                   (reqUserId req) angleHint videoPath in
               (if negb (UserData.isPro u)
                then incrementFreeAnalysesUsed (default "" (reqDeviceId req))
                       (reqUserId req)
                else ret tt) >>
               json 201 (CreatedBody analysisId uploadUrl "pending_upload"))
            (handleError "Failed to create analysis job") w) as ->.
  { subst r w1. unfold postAnalysis. rewrite Hbody, Hdev. cbn [negb].
    unfold try_catch, bind at 1 4.
    destruct (getOrCreateUserData _ _ w) as [o w1]. simpl in Hread.
    by subst o. }
  rewrite Hfree. cbn [negb andb].
  split.
  - intros Hused. rewrite bool_decide_eq_true_2 by done.
    destruct Hwas as [(_ & Husers & Htrace) | (_ & Hzero & Hone)]; [| lia].
    unfold try_catch, bind, throw, createError, handleError, json, ret.
    cbn [fst snd]. auto.
  - intros Hused. rewrite bool_decide_eq_false_2 by lia.
    set (m := try_catch _ _).
    as_post m w. subst m.
    unfold generateSignedUploadUrl, createAnalysisJob,
      incrementFreeAnalysesUsed, handleError.
    fold docId.
    post_step. post_step. unfold post at 1. cbn [fst snd].
    repeat (first [ post_step | post_case ]); world_simpl.
    all: split.
    all: try (right; split; [by eauto |]; split; [done |]; auto; fail).
    all: try (intros uploadUrl Hsign Hup1; split; intros Hup2; try done; try congruence).
    + unfold statusOf. world_simpl. rewrite lookup_insert_eq. done.
    + left. eexists. split; [done |]. split; [by rewrite <- app_assoc |].
      unfold statusOf. world_simpl. rewrite !lookup_insert_eq. simpl.
      split; [done |]. congruence.
    + split; [congruence |]. split; [by rewrite <- app_assoc |].
      unfold statusOf. world_simpl. rewrite !lookup_insert_eq. simpl.
      split; [done |]. congruence.
Qed.

(** The first request of a new owner is served: the user record is
    created with a limit of one, then the job, then the usage is counted. *)
Example postAnalysis_first_request :
  (postAnalysis sampleRequest emptyWorld).1
  = Ok {| statusCode := 201;
          body := CreatedBody "J" "https://upload" "pending_upload" |}
  ∧ trace createdWorld
    = [UserCreated "dev"; JobCreated "J"; UsageIncremented "dev"]
  ∧ statusOf "J" createdWorld = Some queued
  ∧ (UserData.freeAnalysesUsed <$> users createdWorld !! "dev") = Some 1%Z.
Proof. by vm_compute. Qed.

(** A second request of the same owner, whose single free analysis is
    used. *)
Definition secondRequest : CreateRequest :=
  {| parsedBody := Some (Some side);
     reqDeviceId := Some "dev";
     reqUserId := None;
     newAnalysisId := "J2";
     newVideoUuid := "u2";
     signedUrl := Ok "https://upload2" |}.

Lemma postAnalysis_gate_job_then_count_witness :
  ((postAnalysis secondRequest createdWorld).1
   = Ok {| statusCode := 402;
           body := ErrorBody "PAYWALL_REQUIRED"
             "Free analyses limit reached. Upgrade to Pro for unlimited access." |}
   ∧ analyses (postAnalysis secondRequest createdWorld).2
     = analyses createdWorld)
  ∧ (postAnalysis sampleRequest emptyWorld).1
    = Ok {| statusCode := 201;
            body := CreatedBody (newAnalysisId sampleRequest) "https://upload"
                                "pending_upload" |}
  ∧ (UserData.freeAnalysesUsed
       <$> users (postAnalysis sampleRequest emptyWorld).2 !! "dev")
    = Some 1%Z.
Proof.
  split.
  - eassert ((getOrCreateUserData "dev" None createdWorld).1 = Ok _) as Hread
      by (vm_compute; reflexivity).
    pose proof (postAnalysis_gate_job_then_count secondRequest createdWorld
                  (Some side) _ eq_refl eq_refl Hread eq_refl) as [Hdenied _].
    destruct Hdenied as (Hresp & Hjobs & _); [by vm_compute |].
    split; [exact Hresp | exact Hjobs].
  - eassert ((getOrCreateUserData "dev" None emptyWorld).1 = Ok _) as Hread
      by (vm_compute; reflexivity).
    pose proof (postAnalysis_gate_job_then_count sampleRequest emptyWorld
                  (Some side) _ eq_refl eq_refl Hread eq_refl) as [_ Hallowed].
    destruct Hallowed as [_ Hserved]; [by vm_compute |].
    destruct (Hserved "https://upload" eq_refl) as [H201 _]; [by vm_compute |].
    destruct H201 as (Hresp & _ & _ & Hcount); [by vm_compute |].
    split; [exact Hresp | exact Hcount].
Defined.


(** Firestore refuses the fourth request of the creation, the update of
    the usage counter, after it took the read and the creation of the user
    record and the job record. *)
Definition incrementRefused : World :=
  set_faults [false; false; false; true] emptyWorld.

(** The claim of C3 fails: the owner is not pro and is allowed, the job
    record is created, and the usage counter is not raised. *)
Lemma postAnalysis_job_without_count_counterexample :
  let r := postAnalysis sampleRequest incrementRefused in
  r.1 = Ok {| statusCode := 500;
              body := ErrorBody "ANALYSIS_FAILED"
                        "Failed to create analysis job" |}
  ∧ trace r.2 = [UserCreated "dev"; JobCreated "J"]
  ∧ statusOf "J" r.2 = Some queued
  ∧ (UserData.isPro <$> users r.2 !! "dev") = Some false
  ∧ (UserData.freeAnalysesLimit <$> users r.2 !! "dev") = Some 1%Z
  ∧ (UserData.freeAnalysesUsed <$> users r.2 !! "dev") = Some 0%Z.
Proof. by vm_compute. Qed.

End Create.

(** ** Temporary paths of the worker *)

Section Paths.

Fixpoint lastChar (s : string) : option Ascii.ascii :=
  match s with
  | EmptyString => None
  | String a EmptyString => Some a
  | String _ rest => lastChar rest
  end.

Lemma lastChar_app s t : t ≠ "" → lastChar (s +:+ t) = lastChar t.
Proof.
  intros Ht. induction s as [| a s IH]; [done |].
  simpl. rewrite IH. destruct (s +:+ t) eqn:E; [| done].
  by destruct s.
Qed.

Lemma append_nonempty s t : t ≠ "" → s +:+ t ≠ "".
Proof. intros Ht. by destruct s. Qed.

Lemma lastChar_tmp name suffix :
  suffix ≠ "" → lastChar ("/tmp/" +:+ name +:+ suffix) = lastChar suffix.
Proof.
  intros Hs. rewrite lastChar_app by by apply append_nonempty.
  by apply lastChar_app.
Qed.

(** The local video never shares its path with one of the two
    directories. *)
Lemma frames_ne_video id u :
  "/tmp/" +:+ id +:+ "-frames" ≠ "/tmp/" +:+ u +:+ ".mp4".
Proof.
  intros E. apply (f_equal lastChar) in E. by rewrite !lastChar_tmp in E.
Qed.

Lemma skeletons_ne_video id u :
  "/tmp/" +:+ id +:+ "-skeletons" ≠ "/tmp/" +:+ u +:+ ".mp4".
Proof.
  intros E. apply (f_equal lastChar) in E. by rewrite !lastChar_tmp in E.
Qed.

Lemma append_inv_head s a b : s +:+ a = s +:+ b → a = b.
Proof. induction s as [| ch s IH]; simpl; [done |]. intros [= E]. auto. Qed.

Lemma skeletons_ne_frames id :
  "/tmp/" +:+ id +:+ "-skeletons" ≠ "/tmp/" +:+ id +:+ "-frames".
Proof. intros E. by do 2 apply append_inv_head in E. Qed.

End Paths.

(** ** The worker *)

Ltac post_run :=
  repeat first
    [ post_step
    | match goal with
      | H : head _ = Some true, Hf : faults _ = [] |- _ =>
          exfalso; world_simpl; rewrite Hf in H; done
      end
    | progress cbv beta iota
    | rewrite lookup_insert_ne by first [ apply frames_ne_video
                                        | apply skeletons_ne_video ]
    | post_case ].

Section Worker.

Lemma processAnalysisTask_unfold params c :
  processAnalysisTask params c
  = let analysisId := t_analysisId params in
    let skeletonOutputDir := "/tmp/" +:+ analysisId +:+ "-skeletons" in
    let localVideoPath := "/tmp/" +:+ uuid c +:+ ".mp4" in
    let framesDir := "/tmp/" +:+ analysisId +:+ "-frames" in
    try_catch
      (updateAnalysisStatus analysisId processing (Some extracting_frames) None >>
       downloadVideo (t_videoPath params) localVideoPath c >>
       let! framePaths := extractShootingFrames localVideoPath framesDir c in
       updateAnalysisStatus analysisId processing (Some pose) None >>
       let! (shootingAngles, skeletonFrameUrls) :=
         poseStep analysisId framesDir skeletonOutputDir c in
       updateAnalysisStatus analysisId processing (Some llm) None >>
       let! sessions :=
         getUserSessions (t_deviceId params) (t_userId params) 5 in
       let! analysis :=
         analyzeShootingForm
           {| p_videoPath := localVideoPath;
              p_angleHint := t_angleHint params;
              p_previousFocus := previousFocusOf sessions;
              p_sessionsOnFocus := sessionsOnFocusOf sessions;
              p_shootingAngles := shootingAngles |} c in
       updateAnalysisStatus analysisId processing (Some saving) None >>
       saveAnalysisResults analysisId
         {| r_coachSummary := Gemini.coachSummary analysis;
            r_primaryFocus := Gemini.primaryFocus analysis;
            r_whyItMatters := Gemini.whyItMatters analysis;
            r_drillRecommendation := Gemini.drillRecommendation analysis;
            r_correctionCategory := Gemini.correctionCategory analysis;
            r_priorReferenceText := None;
            r_skeletonFrameUrls := Some skeletonFrameUrls;
            r_shootingAngles := measurements <$> shootingAngles |} >>
       saveSession analysisId (t_deviceId params) (t_userId params)
         (Gemini.primaryFocus analysis) (Gemini.correctionCategory analysis)
         (t_videoPath params) >>
       updateAnalysisStatus analysisId complete None None >>
       unlinkSync localVideoPath >>
       (let! framesExist := existsSync framesDir in
        if framesExist then rmSync framesDir else ret tt) >>
       cleanupSkeletonFrames skeletonOutputDir)
      (λ error,
         try_catch (cleanupSkeletonFrames skeletonOutputDir) (λ _, ret tt) >>
         updateAnalysisStatus analysisId failed None
           (Some (errorMessage error)) >>
         throw error).
Proof. reflexivity. Qed.

(** C5, as the worker implements it. The landmark step throws while
    Cloud Storage, the frame extractor, Firestore and the coaching
    collaborator answer: the worker returns normally, the coaching call
    was made without angles, and the job is [complete] with an empty list
    of annotated frames.  The run writes no angle measurement: the record
    keeps the one it held before, none for a job that was never
    processed. *)
Theorem processAnalysisTask_pose_failure_writes_no_angles
    (params : TaskPayload) (c : Collaborators) (w : World)
    (j : AnalysisJob.t) (names : list string) (poseError : JsError)
    (analysis : Gemini.CoachingAnalysisResult)
    (Hjob : analyses w !! t_analysisId params = Some j)
    (Hup : faults w = [])
    (Hdownload : download c = Ok tt)
    (Hframes : extractFrames c = Ok names)
    (Hpose : mediaPipe c = Throw poseError)
    (Hgemini : gemini c = ParsedJson analysis) :
  let r := processAnalysisTask params c w in
  r.1 = Ok tt
  ∧ (∃ call, llmCalls r.2 = llmCalls w ++ [call]
             ∧ p_shootingAngles call = None)
  ∧ (∃ j', analyses r.2 !! t_analysisId params = Some j'
           ∧ AnalysisJob.status j' = complete
           ∧ AnalysisJob.shootingAngles j' = AnalysisJob.shootingAngles j
           ∧ AnalysisJob.skeletonFrameUrls j' = Some []
           ∧ AnalysisJob.correctionCategory j'
             = Some (Gemini.correctionCategory
                       (Gemini.validateCategory analysis))).
Proof.
  intros r. subst r. as_post (processAnalysisTask params c) w.
  rewrite processAnalysisTask_unfold. cbv zeta.
  unfold updateAnalysisStatus, saveAnalysisResults, updateAnalysisDoc,
    downloadVideo, extractShootingFrames, poseStep, runMediaPipePose,
    getUserSessions, analyzeShootingForm, readFileSync, saveSession,
    unlinkSync, existsSync, rmSync, cleanupSkeletonFrames.
  rewrite Hdownload, Hframes, Hpose, Hgemini.
  post_run; world_simpl; rewrite ?lookup_insert_eq;
    (split; [done |]); (split; [by eexists |]);
    eexists; (split; [done |]); done.
Qed.

Definition poseDown : Collaborators :=
  {| uuid := uuid sampleCollaborators;
     download := download sampleCollaborators;
     extractFrames := extractFrames sampleCollaborators;
     framesLeftOnFailure := None;
     skeletonFilesWritten := None;
     mediaPipe := Throw (ErrorObj "MediaPipe worker failed with code 1: ");
     bucketUpload := bucketUpload sampleCollaborators;
     gemini := gemini sampleCollaborators |}.

Lemma processAnalysisTask_pose_failure_writes_no_angles_witness :
  (processAnalysisTask samplePayload poseDown createdWorld).1 = Ok tt
  ∧ ∃ j', analyses (processAnalysisTask samplePayload poseDown createdWorld).2
            !! t_analysisId samplePayload = Some j'
          ∧ AnalysisJob.status j' = complete
          ∧ AnalysisJob.shootingAngles j' = None
          ∧ AnalysisJob.skeletonFrameUrls j' = Some [].
Proof.
  eassert (analyses createdWorld !! t_analysisId samplePayload = Some _) as Hjob
    by (vm_compute; reflexivity).
  assert (faults createdWorld = []) as Hup by (by vm_compute).
  assert (download poseDown = Ok tt) as Hdownload by reflexivity.
  eassert (extractFrames poseDown = Ok _) as Hframes by reflexivity.
  eassert (mediaPipe poseDown = Throw _) as Hpose by reflexivity.
  eassert (gemini poseDown = ParsedJson _) as Hgemini by reflexivity.
  pose proof (processAnalysisTask_pose_failure_writes_no_angles
                samplePayload poseDown createdWorld _ _ _ _
                Hjob Hup Hdownload Hframes Hpose Hgemini)
    as (Hret & _ & j' & Hj' & Hst & Hangles & Hurls & _).
  split; [exact Hret |]. exists j'. repeat split; assumption.
Defined.

(** The claim of C5 fails on a job that was processed before: the task
    of a [complete] job is delivered again and the landmark step throws
    this time.  The job is [complete] again, and the angle measurement of
    the earlier run is still in the record. *)
Lemma stale_angles_counterexample :
  let r := processAnalysisTask samplePayload poseDown completedWorld in
  r.1 = Ok tt
  ∧ statusOf "J" r.2 = Some complete
  ∧ (analyses r.2 !! "J" ≫= AnalysisJob.shootingAngles)
    = Some (measurements sampleAngles)
  ∧ (analyses r.2 !! "J" ≫= AnalysisJob.skeletonFrameUrls) = Some [].
Proof. by vm_compute. Qed.

(** *** Steps that only touch the local disk *)

Lemma set_disk_id w : set_disk (λ d, d) w = w.
Proof. by destruct w. Qed.

Lemma post_poseStep analysisId framesDir skeletonOutputDir c w Q :
  (∀ r f, Q (Ok r) (set_disk f w)) →
  post (poseStep analysisId framesDir skeletonOutputDir c) w Q.
Proof.
  intros HQ. unfold poseStep, runMediaPipePose, uploadSkeletonFrames.
  repeat first [ post_step | post_case ]; try apply HQ;
    rewrite <- (set_disk_id w); apply HQ.
Qed.

Lemma post_cleanupSkeletonFrames skeletonDir w Q :
  (∀ f, Q (Ok tt) (set_disk f w)) →
  post (cleanupSkeletonFrames skeletonDir) w Q.
Proof.
  intros HQ. unfold cleanupSkeletonFrames.
  repeat first [ post_step | post_case ]; try apply HQ;
    rewrite <- (set_disk_id w); apply HQ.
Qed.

Lemma post_unlinkSync path w Q :
  (∀ f, Q (Ok tt) (set_disk f w)) →
  Q (Throw (ErrorObj "ENOENT")) w →
  post (unlinkSync path) w Q.
Proof.
  intros HQ HE. unfold unlinkSync.
  repeat first [ post_step | post_case ]; done.
Qed.

Lemma post_readFileSync path w Q :
  Q (Ok tt) w →
  Q (Throw (ErrorObj "ENOENT")) w →
  post (readFileSync path) w Q.
Proof.
  intros HQ HE. unfold readFileSync.
  repeat first [ post_step | post_case ]; done.
Qed.

Lemma post_existsSync path w Q :
  (∀ b, Q (Ok b) w) → post (existsSync path) w Q.
Proof. intros HQ. apply HQ. Qed.

Lemma post_rmSync path w Q :
  (∀ f, Q (Ok tt) (set_disk f w)) → post (rmSync path) w Q.
Proof. intros HQ. apply HQ. Qed.

Lemma post_downloadVideo videoPath destination c w Q :
  (∀ f, Q (Ok tt) (set_disk f w)) →
  (∀ e, Q (Throw e) w) →
  post (downloadVideo videoPath destination c) w Q.
Proof.
  intros HQ HE. unfold downloadVideo.
  repeat first [ post_step | post_case ]; done.
Qed.

Lemma post_extractShootingFrames localVideoPath framesDir c w Q :
  (∀ paths f, Q (Ok paths) (set_disk f w)) →
  (∀ e f, Q (Throw e) (set_disk f w)) →
  post (extractShootingFrames localVideoPath framesDir c) w Q.
Proof.
  intros HQ HE. unfold extractShootingFrames.
  repeat first [ post_step | post_case ]; try done.
  rewrite <- (set_disk_id w). apply HE.
Qed.

End Worker.

(** Symbolic execution that forgets what happens on the disk. *)
Ltac post_ledger_step :=
  lazymatch goal with
  | |- post (poseStep _ _ _ _) _ _ => apply post_poseStep; intros ? ?
  | |- post (cleanupSkeletonFrames _) _ _ =>
      apply post_cleanupSkeletonFrames; intros ?
  | |- post (unlinkSync _) _ _ => apply post_unlinkSync; [intros ? |]
  | |- post (readFileSync _) _ _ => apply post_readFileSync
  | |- post (existsSync _) _ _ => apply post_existsSync; intros ?
  | |- post (rmSync _) _ _ => apply post_rmSync; intros ?
  | |- post (downloadVideo _ _ _) _ _ =>
      apply post_downloadVideo; [intros ? | intros ?]
  | |- post (extractShootingFrames _ _ _) _ _ =>
      apply post_extractShootingFrames; [intros ? ? | intros ? ?]
  | |- post _ _ _ => first [ post_step | progress cbv beta iota | post_case ]
  end.

Ltac post_ledger := repeat post_ledger_step.

Ltac worker_unfold :=
  rewrite processAnalysisTask_unfold; cbv zeta;
  unfold updateAnalysisStatus, saveAnalysisResults, updateAnalysisDoc,
    downloadVideo, extractShootingFrames, poseStep, runMediaPipePose,
    uploadSkeletonFrames, getUserSessions, analyzeShootingForm, readFileSync,
    saveSession, unlinkSync, existsSync, rmSync, cleanupSkeletonFrames.

(** Symbolic execution that follows the files on the disk; the paths are
    variables known to differ. *)
Ltac disk_lookup_in E :=
  repeat first
    [ rewrite lookup_insert_eq in E
    | rewrite lookup_delete_eq in E
    | rewrite lookup_insert_ne in E by done
    | rewrite lookup_delete_ne in E by done ].

Ltac disk_prune E :=
  disk_lookup_in E;
  try (exfalso; congruence);
  try (exfalso; apply bool_decide_eq_false in E; apply E; by eexists).

Ltac disk_run :=
  repeat first
    [ post_step
    | match goal with
      | H : head _ = Some true, Hf : faults _ = [] |- _ =>
          exfalso; world_simpl; rewrite Hf in H; done
      end
    | progress cbv beta iota
    | lazymatch goal with
      | |- post (match ?x with _ => _ end) _ _ =>
          first [ progress world_simpl
                | match goal with H : x = _ |- _ => rewrite H end
                | lazymatch x with
                  | <[?k:=_]> _ !! ?k => rewrite lookup_insert_eq
                  end
                | let E := fresh "E" in destruct x eqn:E; disk_prune E ]
      end ].

Ltac disk_leaf :=
  repeat split; intros;
  repeat first
    [ rewrite lookup_insert_eq
    | rewrite lookup_delete_eq
    | rewrite lookup_insert_ne by done
    | rewrite lookup_delete_ne by done ];
  first [ done | congruence ].

(** ** The status of a job over time *)

Section StatusOrder.

(** The order of the claim: [queued], then [processing], then [complete]
    or [failed]; a terminal status is never left.  Writing the status
    that is stored already is no move, and a job whose first status write
    is refused goes from [queued] to [failed]. *)
Definition mayFollow (a b : AnalysisStatus) : bool :=
  match a, b with
  | queued, queued | queued, processing | queued, failed
  | processing, processing | processing, complete | processing, failed
  | complete, complete
  | failed, failed => true
  | _, _ => false
  end.

(** Every status of the list may follow the one before it. *)
Fixpoint inOrder (statuses : list AnalysisStatus) : bool :=
  match statuses with
  | a :: (b :: _) as rest => mayFollow a b && inOrder rest
  | _ => true
  end.

Lemma statusWrites_app id evs1 evs2 :
  statusWrites id (evs1 ++ evs2) = statusWrites id evs1 ++ statusWrites id evs2.
Proof. apply omap_app. Qed.

Lemma statusWrites_written id s :
  statusWrites id [StatusWritten id s] = [s].
Proof. unfold statusWrites. simpl. by rewrite bool_decide_eq_true_2. Qed.

(** Both ledger mutations write the status they are given, whatever the
    stored status is. *)
Lemma updateAnalysisDoc_overwrites id f w j :
  analyses w !! id = Some j →
  head (faults w) ≠ Some true →
  analyses (updateAnalysisDoc id f w).2 !! id = Some (f j).
Proof.
  intros Hjob Hup. as_post (updateAnalysisDoc id f) w.
  unfold updateAnalysisDoc.
  repeat first [ post_step | post_case ]; world_simpl; try done.
  by rewrite lookup_insert_eq.
Qed.

Lemma updateAnalysisStatus_overwrites id st stage err w j :
  analyses w !! id = Some j →
  head (faults w) ≠ Some true →
  statusOf id (updateAnalysisStatus id st stage err w).2 = Some st.
Proof.
  intros Hjob Hup. unfold statusOf, updateAnalysisStatus, bind, now.
  erewrite updateAnalysisDoc_overwrites; done.
Qed.

Lemma saveAnalysisResults_overwrites id results w j :
  analyses w !! id = Some j →
  head (faults w) ≠ Some true →
  statusOf id (saveAnalysisResults id results w).2 = Some complete.
Proof.
  intros Hjob Hup. unfold statusOf, saveAnalysisResults, bind, now.
  erewrite updateAnalysisDoc_overwrites; done.
Qed.


(** The events of a run, and the statuses among them. *)
Ltac order_leaf Hstart :=
  eexists; split;
    [ first [ symmetry; apply app_nil_r | by rewrite <- ?app_assoc ] |];
  rewrite ?statusWrites_app, ?statusWrites_written;
  cbn [statusWrites omap app AnalysisJob.status applyStatusUpdate
       applyResults];
  destruct Hstart as [-> | ->].

(** One run of the worker on a job that is [queued] or [processing],
    whatever the collaborators and Firestore do: the statuses it writes
    are in order when it returns, and when it writes no [complete]. *)
Lemma processAnalysisTask_writes_in_order params c w j :
  analyses w !! t_analysisId params = Some j →
  AnalysisJob.status j = queued ∨ AnalysisJob.status j = processing →
  let r := processAnalysisTask params c w in
  ∃ evs, trace r.2 = trace w ++ evs
         ∧ (r.1 = Ok tt ∨ complete ∉ statusWrites (t_analysisId params) evs →
            inOrder
              (AnalysisJob.status j :: statusWrites (t_analysisId params) evs)
            = true).
Proof.
  intros Hjob Hstart r. subst r.
  as_post (processAnalysisTask params c) w.
  rewrite processAnalysisTask_unfold. cbv zeta.
  unfold updateAnalysisStatus, saveAnalysisResults, updateAnalysisDoc,
    getUserSessions, analyzeShootingForm, saveSession.
  post_ledger; world_simpl; order_leaf Hstart.
  all: try (intros _; reflexivity).
  all: intros [? | Hno]; [discriminate |].
  all: exfalso; apply Hno; set_solver.
Qed.

(** The same run while Firestore answers every request: the video it
    downloaded is still on the disk when it is removed, so nothing fails
    once the results are saved, and the statuses written are in order. *)
Lemma processAnalysisTask_writes_in_order_up params c w j :
  analyses w !! t_analysisId params = Some j →
  AnalysisJob.status j = queued ∨ AnalysisJob.status j = processing →
  faults w = [] →
  let r := processAnalysisTask params c w in
  ∃ evs, trace r.2 = trace w ++ evs
         ∧ inOrder
             (AnalysisJob.status j :: statusWrites (t_analysisId params) evs)
           = true.
Proof.
  intros Hjob Hstart Hup r. subst r.
  as_post (processAnalysisTask params c) w.
  worker_unfold.
  assert ("/tmp/" +:+ t_analysisId params +:+ "-skeletons"
          ≠ "/tmp/" +:+ uuid c +:+ ".mp4") as N1 by apply skeletons_ne_video.
  assert ("/tmp/" +:+ t_analysisId params +:+ "-frames"
          ≠ "/tmp/" +:+ uuid c +:+ ".mp4") as N2 by apply frames_ne_video.
  assert ("/tmp/" +:+ t_analysisId params +:+ "-skeletons"
          ≠ "/tmp/" +:+ t_analysisId params +:+ "-frames") as N3
    by apply skeletons_ne_frames.
  revert N1 N2 N3.
  generalize ("/tmp/" +:+ uuid c +:+ ".mp4") as video.
  generalize ("/tmp/" +:+ t_analysisId params +:+ "-frames") as frames.
  generalize ("/tmp/" +:+ t_analysisId params +:+ "-skeletons") as skeletons.
  intros skeletons frames video N1 N2 N3.
  disk_run; world_simpl; order_leaf Hstart; reflexivity.
Qed.

(** C1, as the ledger implements it. [updateAnalysisStatus] and
    [saveAnalysisResults] are unconditional updates of an existing record:
    once Firestore takes the request, the stored status is the one asked
    for ([complete] for the results), whatever it was before.  The order
    queued, processing, then complete or failed, with the terminal states
    final, is kept by the writes of one worker run that starts on a job
    that is [queued] or [processing], when the run returns, when Firestore
    answers all its requests, and when it writes no [complete]. *)
Theorem ledger_writes_unconditional_run_in_order
    (params : TaskPayload) (c : Collaborators) (w : World) (j : AnalysisJob.t)
    (Hjob : analyses w !! t_analysisId params = Some j)
    (Hstart : AnalysisJob.status j = queued ∨ AnalysisJob.status j = processing) :
  (∀ id status stage error results w0 j0,
     analyses w0 !! id = Some j0 →
     head (faults w0) ≠ Some true →
     statusOf id (updateAnalysisStatus id status stage error w0).2 = Some status
     ∧ statusOf id (saveAnalysisResults id results w0).2 = Some complete)
  ∧ let r := processAnalysisTask params c w in
    ∃ evs, trace r.2 = trace w ++ evs
           ∧ (r.1 = Ok tt ∨ faults w = []
              ∨ complete ∉ statusWrites (t_analysisId params) evs →
              inOrder
                (AnalysisJob.status j
                 :: statusWrites (t_analysisId params) evs) = true).
Proof.
  split.
  - intros id status stage error results w0 j0 Hj0 Hup0. split.
    + by eapply updateAnalysisStatus_overwrites.
    + by eapply saveAnalysisResults_overwrites.
  - intros r.
    destruct (processAnalysisTask_writes_in_order params c w j Hjob Hstart)
      as (evs & Hevs & Horder).
    exists evs. split; [exact Hevs |].
    intros [Hret | [Hup | Hno]]; [by apply Horder; left | | by apply Horder; right].
    destruct (processAnalysisTask_writes_in_order_up params c w j
                Hjob Hstart Hup) as (evs' & Hevs' & Horder').
    fold r in Hevs, Hevs'. rewrite Hevs in Hevs'.
    by apply app_inv_head in Hevs' as ->.
Qed.

Lemma ledger_writes_unconditional_run_in_order_witness :
  ∃ evs,
    trace (processAnalysisTask samplePayload sampleCollaborators createdWorld).2
    = trace createdWorld ++ evs
    ∧ inOrder (queued :: statusWrites (t_analysisId samplePayload) evs)
      = true.
Proof.
  eassert (analyses createdWorld !! t_analysisId samplePayload = Some _) as Hjob
    by (vm_compute; reflexivity).
  assert (faults createdWorld = []) as Hup by (by vm_compute).
  destruct (proj2 (ledger_writes_unconditional_run_in_order
                     samplePayload sampleCollaborators createdWorld _
                     Hjob (or_introl eq_refl)))
    as (evs & Hevs & Horder).
  exists evs. split; [exact Hevs |].
  exact (Horder (or_intror (or_introl Hup))).
Defined.

(** Firestore refuses the seventh request of a run, the one that stores
    the session: the results were saved before, so the job was written
    [complete], and the handler of the failure writes [failed] over it.
    This run throws after a [complete], the case the theorem leaves
    out. *)
Definition sessionStoreDown : World :=
  set_faults [false; false; false; false; false; false; true] createdWorld.

Example processAnalysisTask_fails_after_results :
  let r := processAnalysisTask samplePayload sampleCollaborators
             sessionStoreDown in
  r.1 = Throw (ErrorObj "UNAVAILABLE")
  ∧ statusWrites "J" (trace r.2)
    = [processing; processing; processing; processing; complete; failed]
  ∧ statusOf "J" r.2 = Some failed
  ∧ sessions r.2 = ∅.
Proof. by vm_compute. Qed.

(** The same task delivered twice (two start calls reach the route while
    the job is still [queued]). *)
Definition startedTwice : World :=
  (postAnalysisStart "J" (Some "dev") true
     (postAnalysisStart "J" (Some "dev") true createdWorld).2).2.

Definition deliveredTwice : World :=
  (postProcessAnalysis samplePayload sampleCollaborators
     (postProcessAnalysis samplePayload sampleCollaborators startedTwice).2).2.

(** The claim of C1 fails: the second delivery finds the job [complete]
    and writes [processing] over it, no write looks at the stored status,
    and the job is written [complete] four times. *)
Lemma status_moves_backward_counterexample :
  tasks startedTwice = [samplePayload; samplePayload]
  ∧ statusOf "J" completedWorld = Some complete
  ∧ statusOf "J"
      (updateAnalysisStatus "J" processing (Some extracting_frames) None
         completedWorld).2 = Some processing
  ∧ statusWrites "J" (trace deliveredTwice)
    = [ processing; processing; processing; processing; complete; complete;
        processing; processing; processing; processing; complete; complete ]
  ∧ inOrder (statusWrites "J" (trace deliveredTwice)) = false.
Proof. by vm_compute. Qed.

End StatusOrder.

(** ** Clean-up of the temporary files *)

Section Cleanup.

(** Whatever the world, a run whose coaching collaborator fails after the
    download and the frame extraction ends with the job [failed] and with
    the video and the frames directory still on the disk. *)
Lemma processAnalysisTask_coaching_failure params c w j names :
  analyses w !! t_analysisId params = Some j →
  faults w = [] →
  download c = Ok tt →
  extractFrames c = Ok names →
  (∀ analysis, gemini c ≠ ParsedJson analysis) →
  let r := processAnalysisTask params c w in
  (∃ e, r.1 = Throw e)
  ∧ statusOf (t_analysisId params) r.2 = Some failed
  ∧ disk r.2 !! ("/tmp/" +:+ uuid c +:+ ".mp4") = Some File
  ∧ disk r.2 !! ("/tmp/" +:+ t_analysisId params +:+ "-frames")
    = Some (Dir names).
Proof.
  intros Hjob Hup Hdownload Hframes Hgemini r. subst r.
  as_post (processAnalysisTask params c) w.
  rewrite processAnalysisTask_unfold. cbv zeta.
  unfold updateAnalysisStatus, saveAnalysisResults, updateAnalysisDoc,
    downloadVideo, extractShootingFrames, poseStep, runMediaPipePose,
    uploadSkeletonFrames, getUserSessions, analyzeShootingForm, readFileSync,
    saveSession, unlinkSync, existsSync, rmSync, cleanupSkeletonFrames.
  rewrite Hdownload, Hframes.
  pose proof (skeletons_ne_video (t_analysisId params) (uuid c)) as N1.
  pose proof (frames_ne_video (t_analysisId params) (uuid c)) as N2.
  pose proof (skeletons_ne_frames (t_analysisId params)) as N3.
  destruct (gemini c) eqn:Eg; [| | | by destruct (Hgemini analysis)];
    post_run; world_simpl; unfold statusOf; world_simpl;
    rewrite ?lookup_insert_eq;
    (split; [by eexists |]); (split; [done |]);
    by simplify_map_eq.
Qed.

(** C4. A job whose coaching collaborator throws (both Gemini models
    fail) after the video was downloaded and its frames extracted: the job
    is [failed] with the collaborator's message, the skeleton directory
    is removed, but the downloaded video and the frames directory stay on
    the disk.  The run that succeeds removes all three. *)
Theorem processAnalysisTask_failure_leaves_files :
  let r := processAnalysisTask samplePayload geminiDown createdWorld in
  r.1 = Throw (ErrorObj "Failed to analyze shooting form with Gemini")
  ∧ statusOf "J" r.2 = Some failed
  ∧ (analyses r.2 !! "J" ≫= AnalysisJob.error)
    = Some "Failed to analyze shooting form with Gemini"
  ∧ disk r.2 !! "/tmp/J-skeletons" = None
  ∧ disk r.2 !! "/tmp/v.mp4" = Some File
  ∧ disk r.2 !! "/tmp/J-frames" = Some (Dir ["f1.jpg"; "f2.jpg"])
  ∧ disk completedWorld = ∅.
Proof. by vm_compute. Qed.

End Cleanup.

(** ** The persisted category *)

Section PersistedCategory.



End PersistedCategory.

(** ** The continuity context *)

Section Continuity.

Global Instance newer_first_total : Total newer_first.
Proof. intros a b. unfold newer_first. lia. Qed.

Global Instance newer_first_trans : Transitive newer_first.
Proof. intros a b c. unfold newer_first. lia. Qed.

(** What the session query returns: at most [limit] sessions of the
    device, all from the collection, the later ones first. *)
Lemma sessionsQuery_spec docs deviceId limit :
  let result := sessionsQuery docs deviceId limit in
  length result ≤ limit
  ∧ StronglySorted newer_first result
  ∧ ∀ s, s ∈ result →
         SessionSummary.deviceId s = deviceId ∧ ∃ k, docs !! k = Some s.
Proof.
  intros result. subst result. unfold sessionsQuery.
  set (sorted := merge_sort newer_first _).
  split; [rewrite length_take; lia |]. split.
  - pose proof (StronglySorted_merge_sort newer_first
        (filter (λ s, SessionSummary.deviceId s = deviceId)
                (snd <$> map_to_list docs))) as Hs.
    fold sorted in Hs.
    rewrite <- (take_drop limit sorted) in Hs.
    by apply StronglySorted_app_1_l in Hs.
  - intros s Hs. apply (subseteq_take limit) in Hs. unfold sorted in Hs.
    rewrite merge_sort_Permutation in Hs.
    apply list_elem_of_filter in Hs as [Hdev Hin].
    split; [done |].
    apply list_elem_of_fmap in Hin as ([k s'] & -> & Hks).
    exists k. by apply elem_of_map_to_list in Hks.
Qed.

(** The specification's reading of the count: how many sessions, from the
    most recent one on, share its focus without interruption. *)
Fixpoint leadingRun (focus : string) (sessions : list SessionSummary.t) : nat :=
  match sessions with
  | s :: rest =>
      if bool_decide (SessionSummary.primaryFocus s = focus)
      then S (leadingRun focus rest)
      else 0
  | [] => 0
  end.

Definition consecutiveOnFocus (sessions : list SessionSummary.t) : nat :=
  match sessions with
  | s :: _ => leadingRun (SessionSummary.primaryFocus s) sessions
  | [] => 0
  end.

(** What [processAnalysisTask] counts instead: every session of the list
    with the focus of the first one. *)
Lemma sessionsOnFocusOf_count sessions :
  sessionsOnFocusOf sessions
  = length (filter (λ s, Some (SessionSummary.primaryFocus s)
                         = SessionSummary.primaryFocus <$> head sessions)
                   sessions).
Proof. reflexivity. Qed.

Lemma leadingRun_le_count focus sessions :
  leadingRun focus sessions
  ≤ length (filter (λ s, Some (SessionSummary.primaryFocus s) = Some focus)
                   sessions).
Proof.
  induction sessions as [| s rest IH]; simpl; [done |].
  rewrite filter_cons. case_bool_decide as Hf.
  - rewrite decide_True by by rewrite Hf. simpl. lia.
  - lia.
Qed.

Lemma consecutiveOnFocus_le_count sessions :
  consecutiveOnFocus sessions ≤ sessionsOnFocusOf sessions.
Proof.
  destruct sessions as [| s rest]; [done |].
  apply (leadingRun_le_count (SessionSummary.primaryFocus s) (s :: rest)).
Qed.

(** C9, as the worker implements it. The sessions it reads are those of
    the device, the most recent first, five at most.  A run makes at most
    one coaching call, and the continuity values of that call come from
    the sessions as they were when the run started: the focus label of the
    most recent session, and the number of sessions among those read that
    carry this label, which is at least the number of consecutive ones. *)
Theorem processAnalysisTask_continuity
    (params : TaskPayload) (c : Collaborators) (w : World) :
  let read := sessionsQuery (sessions w) (t_deviceId params) 5 in
  let w' := (processAnalysisTask params c w).2 in
  (length read ≤ 5
   ∧ StronglySorted newer_first read
   ∧ ∀ s, s ∈ read →
          SessionSummary.deviceId s = t_deviceId params
          ∧ ∃ k, sessions w !! k = Some s)
  ∧ consecutiveOnFocus read ≤ sessionsOnFocusOf read
  ∧ (llmCalls w' = llmCalls w
     ∨ ∃ call,
         llmCalls w' = llmCalls w ++ [call]
         ∧ p_previousFocus call = SessionSummary.primaryFocus <$> head read
         ∧ p_sessionsOnFocus call
           = length (filter (λ s, Some (SessionSummary.primaryFocus s)
                                  = SessionSummary.primaryFocus <$> head read)
                            read)).
Proof.
  intros read w'.
  split; [apply sessionsQuery_spec |].
  split; [apply consecutiveOnFocus_le_count |].
  subst read w'.
  as_post (processAnalysisTask params c) w.
  rewrite processAnalysisTask_unfold. cbv zeta.
  unfold updateAnalysisStatus, saveAnalysisResults, updateAnalysisDoc,
    getUserSessions, analyzeShootingForm, saveSession.
  destruct (analyses w !! t_analysisId params) as [j |] eqn:Hjob;
    post_ledger; world_simpl;
    first [ by left | right; eexists; split; [done |]; done ].
Qed.

(** Three earlier sessions of the device, the oldest first: the focus of
    the latest one is shared by the oldest but not by the one between. *)
Definition historyWorld : World :=
  (saveSession "s3" "dev" None "Keep your elbow in"
     (Gemini.JsString "shot_line_integrity") "videos/s3/a.mp4"
     (saveSession "s2" "dev" None "Jump straight up and down"
        (Gemini.JsString "balance_verticality") "videos/s2/a.mp4"
        (saveSession "s1" "dev" None "Keep your elbow in"
           (Gemini.JsString "shot_line_integrity") "videos/s1/a.mp4"
           emptyWorld).2).2).2.

Definition historyRun : World :=
  (processAnalysisTask samplePayload sampleCollaborators
     (postAnalysis sampleRequest historyWorld).2).2.

(** The claim of C9 fails on the count: with the foci A, B, A (latest
    first) one session shares the current focus consecutively, and the
    worker passes 2. *)
Lemma sessionsOnFocus_counterexample :
  (SessionSummary.primaryFocus <$> sessionsQuery (sessions historyWorld) "dev" 5)
  = ["Keep your elbow in"; "Jump straight up and down"; "Keep your elbow in"]
  ∧ consecutiveOnFocus (sessionsQuery (sessions historyWorld) "dev" 5) = 1
  ∧ (p_sessionsOnFocus <$> llmCalls historyRun) = [2]
  ∧ (p_previousFocus <$> llmCalls historyRun) = [Some "Keep your elbow in"].
Proof. by vm_compute. Qed.

End Continuity.


(** * The other routes, the effects of the worker, and the app *)

(** ** routes/analysis.ts : the read routes *)

(** What a handler sends: [res.json(payload)], or an error body with its
    status code. *)
Inductive Reply (A : Type) :=
| Json200 (payload : A)
| ErrorReply (statusCode : nat) (code message : string).
Arguments Json200 {A} payload.
Arguments ErrorReply {A} statusCode code message.

(** The [catch] of a handler, with the code and message of its 500. *)
Definition replyError {A} (failureCode failure : string) (error : JsError)
    : M (Reply A) :=
  match error with
  | ApiError message code (S n) => ret (ErrorReply (S n) code message)
  | _ => ret (ErrorReply 500 failureCode failure)
  end.

Record StatusPayload :=
  { s_status : AnalysisStatus;
    s_progressStage : option ProgressStage;
    s_error : option string }.

Record ResultPayload :=
  { a_coachSummary : option string;
    a_primaryFocus : option string;
    a_whyItMatters : option string;
    a_drillRecommendation : option string;
    a_correctionCategory : option Gemini.JsValue;
    a_sessionId : string;
    a_priorReferenceText : option string;
    a_skeletonFrameUrls : list string;
    a_shootingAngles : option ShootingAnglesMeasurements }.

Global Instance AnalysisStatus_eq_dec : EqDecision AnalysisStatus.
Proof. solve_decision. Defined.

(** [router.get("/:id")] *)
Definition getAnalysisStatusRoute (id : string) (reqDeviceId : option string)
    : M (Reply StatusPayload) :=
  try_catch
    (if negb (truthy reqDeviceId) then
       throw (createError "Device ID required" "UNAUTHORIZED" 401)
     else
       let deviceId := default "" reqDeviceId in
       let! job := getAnalysisJob id in
       match job with
       | None => throw (createError "Analysis not found" "NOT_FOUND" 404)
       | Some job =>
           if negb (bool_decide (AnalysisJob.deviceId job = deviceId)) then
             throw (createError "Unauthorized" "UNAUTHORIZED" 403)
           else
             ret (Json200 {| s_status := AnalysisJob.status job;
                             s_progressStage := AnalysisJob.progressStage job;
                             s_error := AnalysisJob.error job |})
       end)
    (replyError "ANALYSIS_FAILED" "Failed to get analysis status").


(** ** services/firestore.ts : the pro flag *)

Definition applyProStatus (isPro : bool) (u : UserData.t) : UserData.t :=
  {| UserData.deviceId := UserData.deviceId u;
     UserData.userId := UserData.userId u;
     UserData.isPro := isPro;
     UserData.freeAnalysesUsed := UserData.freeAnalysesUsed u;
     UserData.freeAnalysesLimit := UserData.freeAnalysesLimit u;
     UserData.createdAt := UserData.createdAt u;
     UserData.lastAnalysisAt := UserData.lastAnalysisAt u |}.

(** [updateProStatus]: an update of the user record, rejected when the
    record does not exist.  The [updatedAt] it also writes is no field of
    [UserData] and is read nowhere; the write is none of the recorded
    events. *)
Definition updateProStatus (deviceId : string) (isPro : bool)
    (userId : option string) : M unit :=
  let docId := or_else userId deviceId in
  let! updatedAt := now in
  request >>
  let! doc := get (λ w, users w !! docId) in
  match doc with
  | None => throw (ErrorObj "NOT_FOUND")
  | Some u => modify (set_users (insert docId (applyProStatus isPro u)))
  end.

(** ** routes/entitlements.ts and routes/purchases.ts *)

Record Entitlements := { e_isPro : bool; e_remainingFreeAnalyses : Z }.


(** [router.post("/sync")]; [bodyValid] is the verdict of the schema. *)
Definition postPurchasesSync (bodyValid : bool)
    (reqDeviceId reqUserId : option string) : M (Reply Entitlements) :=
  try_catch
    (if negb bodyValid then
       throw (createError "Invalid request body" "INVALID_REQUEST" 400)
     else if negb (truthy reqDeviceId) then
       throw (createError "Device ID required" "UNAUTHORIZED" 401)
     else
       let deviceId := default "" reqDeviceId in
       updateProStatus deviceId true reqUserId >>
       ret (Json200 {| e_isPro := true; e_remainingFreeAnalyses := 0 |}))
    (replyError "SYNC_FAILED" "Failed to sync purchase").


(** ** routes/webhooks.ts : the RevenueCat webhook *)

(** A parsed JSON body; the fields of an object carry distinct names. *)
Local Unset Elimination Schemes.
Inductive Json :=
| JNull
| JBool (b : bool)
| JNumber (n : Q)
| JString (s : string)
| JArray (items : list Json)
| JObject (fields : list (string * Json)).
Local Set Elimination Schemes.

Definition fieldOf (fields : list (string * Json)) (name : string)
    : option Json :=
  (λ found, found.2.2) <$> list_find (λ kv, kv.1 = name) fields.

(** [v.name] for one of the names read by the webhook: a [TypeError] on
    [undefined] and [null], the field of an object, [undefined] on any
    other value. *)
Definition getProp (v : option Json) (name : string) : M (option Json) :=
  match v with
  | None | Some JNull => throw (ErrorObj "TypeError")
  | Some (JObject fields) => ret (fieldOf fields name)
  | Some _ => ret None
  end.

(** [v?.name] *)
Definition getPropOptional (v : option Json) (name : string)
    : M (option Json) :=
  match v with
  | None | Some JNull => ret None
  | _ => getProp v name
  end.

Definition jsTruthy (v : option Json) : bool :=
  match v with
  | None | Some JNull | Some (JBool false) => false
  | Some (JNumber n) => negb (Qeq_bool n 0)
  | Some (JString s) => negb (bool_decide (s = ""))
  | Some _ => true
  end.

(** [v === "text"] *)
Definition isString (v : option Json) (text : string) : bool :=
  match v with
  | Some (JString s) => bool_decide (s = text)
  | _ => false
  end.

(** [items.some(pred)] on a value that has to be an array. *)
Fixpoint someM (pred : Json → M bool) (items : list Json) : M bool :=
  match items with
  | [] => ret false
  | e :: rest =>
      let! found := pred e in
      if found then ret true else someM pred rest
  end.

Definition arraySome (pred : Json → M bool) (v : Json) : M bool :=
  match v with
  | JArray items => someM pred items
  | _ => throw (ErrorObj "TypeError")
  end.

Record WebhookAck := { received : bool; ackError : option string }.

Section Webhook.

(** [String.prototype.toLowerCase] *)
Variable toLowerCase : string → string.

(** [e.toLowerCase() === "pro" && e.expires_date === null]: only a string
    has the method, and a string has no [expires_date]. *)
Definition activePro (e : Json) : M bool :=
  let! lowered :=
    match e with
    | JString s => ret (toLowerCase s)
    | _ => throw (ErrorObj "TypeError")
    end in
  if bool_decide (lowered = "pro") then
    let! expires := getProp (Some e) "expires_date" in
    ret match expires with
        | Some JNull => true
        | _ => false
        end
  else ret false.

(** [updateProStatus(appUserId, isPro, appUserId)]: Firestore takes a
    string as the document id and throws on anything else. *)
Definition updateProStatusOf (appUserId : option Json) (isPro : bool)
    : M unit :=
  match appUserId with
  | Some (JString s) => updateProStatus s isPro (Some s)
  | _ => throw (ErrorObj "INVALID_ARGUMENT")
  end.

(** [router.post("/revenuecat")] *)
Definition postRevenuecatWebhook (body : Json) : M WebhookAck :=
  try_catch
    (let event := Some body in
     let! type := getProp event "type" in
     (if isString type "INITIAL_PURCHASE" || isString type "RENEWAL"
         || isString type "NON_RENEWING_PURCHASE"
      then
        let! inner := getProp event "event" in
        let! appUserId := getPropOptional inner "app_user_id" in
        let! productId := getPropOptional inner "product_id" in
        let! listed := getPropOptional inner "entitlements" in
        let entitlements :=
          if jsTruthy listed then default JNull listed else JArray [] in
        let! hasPro := arraySome activePro entitlements in
        if hasPro && jsTruthy appUserId
        then updateProStatusOf appUserId true
        else ret tt
      else ret tt) >>
     let! type := getProp event "type" in
     (if isString type "CANCELLATION" || isString type "EXPIRATION"
         || isString type "BILLING_ISSUE"
      then
        let! inner := getProp event "event" in
        let! appUserId := getPropOptional inner "app_user_id" in
        let! listed := getPropOptional inner "entitlements" in
        let entitlements :=
          if jsTruthy listed then default JNull listed else JArray [] in
        let! hasPro := arraySome activePro entitlements in
        if negb hasPro && jsTruthy appUserId
        then updateProStatusOf appUserId false
        else ret tt
      else ret tt) >>
     ret {| received := true; ackError := None |})
    (λ _, ret {| received := true; ackError := Some "Processing failed" |}).

End Webhook.

(** ** Properties of the read routes *)

Section ReadRoutes.

(** X1. The status of a job is told to its owner only: 404 for an unknown
    id, 403 for another device, the stored status, stage and error for the
    owner; the route writes nothing. *)
Theorem getAnalysisStatusRoute_owner_only (id dev : string) (w : World)
    (Hdev : dev ≠ "")
    (Hup : head (faults w) ≠ Some true) :
  let r := getAnalysisStatusRoute id (Some dev) w in
  analyses r.2 = analyses w ∧ users r.2 = users w ∧ sessions r.2 = sessions w
  ∧ tasks r.2 = tasks w ∧ trace r.2 = trace w
  ∧ match analyses w !! id with
    | None => r.1 = Ok (ErrorReply 404 "NOT_FOUND" "Analysis not found")
    | Some job =>
        if decide (AnalysisJob.deviceId job = dev) then
          r.1 = Ok (Json200 {| s_status := AnalysisJob.status job;
                               s_progressStage := AnalysisJob.progressStage job;
                               s_error := AnalysisJob.error job |})
        else r.1 = Ok (ErrorReply 403 "UNAUTHORIZED" "Unauthorized")
    end.
Proof.
  intros r. subst r. apply truthy_Some in Hdev.
  as_post (getAnalysisStatusRoute id (Some dev)) w.
  unfold getAnalysisStatusRoute, getAnalysisJob, replyError, createError.
  rewrite Hdev. cbn [negb default].
  do 4 post_step; [done |]. post_step. world_simpl.
  destruct (analyses w !! id) as [job |] eqn:Hjob.
  - destruct (decide (AnalysisJob.deviceId job = dev)) as [Hown | Hown].
    + rewrite bool_decide_eq_true_2 by done. cbn [negb].
      repeat first [ post_step | post_case ]; done.
    + rewrite bool_decide_eq_false_2 by done. cbn [negb].
      repeat first [ post_step | post_case ]; done.
  - repeat first [ post_step | post_case ]; done.
Qed.

Lemma getAnalysisStatusRoute_owner_only_witness :
  (getAnalysisStatusRoute "J" (Some "dev") failedWorld).1
  = Ok (Json200 {| s_status := failed;
                   s_progressStage := Some llm;
                   s_error := Some "Failed to analyze shooting form with Gemini" |}).
Proof.
  assert ("dev" ≠ "") as Hdev by done.
  assert (head (faults failedWorld) ≠ Some true) as Hup by (by vm_compute).
  pose proof (getAnalysisStatusRoute_owner_only "J" "dev" failedWorld Hdev Hup)
    as (_ & _ & _ & _ & _ & Hreply).
  eassert (analyses failedWorld !! "J" = Some _) as Hjob
    by (vm_compute; reflexivity).
  rewrite Hjob in Hreply. exact Hreply.
Defined.



End ReadRoutes.

(** ** The analysis service of the app : what it makes of the entitlements *)



(** ** Properties of the entitlement routes *)

Section EntitlementRoutes.

(** The rest of [POST /v1/analysis] once the entitlement is read. *)
Definition afterEntitlementRead (req : CreateRequest)
    (angleHint : option AngleHint) (userData : UserData.t) : M Response :=
  let deviceId := default "" (reqDeviceId req) in
  let userId := reqUserId req in
  if negb (UserData.isPro userData)
     && bool_decide (UserData.freeAnalysesLimit userData
                     ≤ UserData.freeAnalysesUsed userData)%Z
  then
    throw (createError
      "Free analyses limit reached. Upgrade to Pro for unlimited access."
      "PAYWALL_REQUIRED" 402)
  else
    let analysisId := newAnalysisId req in
    let! (uploadUrl, videoPath) := generateSignedUploadUrl analysisId req in
    let! _ := createAnalysisJob analysisId deviceId userId angleHint videoPath in
    (if negb (UserData.isPro userData)
     then incrementFreeAnalysesUsed deviceId userId
     else ret tt) >>
    json 201 (CreatedBody analysisId uploadUrl "pending_upload").

Lemma postAnalysis_after_read req w angleHint u :
  parsedBody req = Some angleHint →
  truthy (reqDeviceId req) = true →
  (getOrCreateUserData (default "" (reqDeviceId req)) (reqUserId req) w).1
  = Ok u →
  postAnalysis req w
  = try_catch (afterEntitlementRead req angleHint u)
      (handleError "Failed to create analysis job")
      (getOrCreateUserData (default "" (reqDeviceId req)) (reqUserId req) w).2.
Proof.
  intros Hbody Hdev Hread. unfold postAnalysis. rewrite Hbody, Hdev.
  cbn [negb]. unfold try_catch, bind at 1.
  destruct (getOrCreateUserData _ _ w) as [o w1]. simpl in Hread. by subst o.
Qed.




(** X4. A pro owner is never refused by the gate, whatever the usage
    count says, and the count is left alone: the user records are not
    written and the only write of the run is the job record.  With the
    upload URL signed the answer is 201 for a [queued] job, or 500 with
    nothing written when Firestore refuses the job record; when the
    signing fails, the answer is the one the handler of the route gives
    for that error, and nothing is written. *)
Theorem postAnalysis_pro_owner (req : CreateRequest) (w : World)
    (angleHint : option AngleHint) (u : UserData.t)
    (Hbody : parsedBody req = Some angleHint)
    (Hdev : truthy (reqDeviceId req) = true)
    (Hread : (getOrCreateUserData (default "" (reqDeviceId req))
                (reqUserId req) w).1 = Ok u)
    (Hpro : UserData.isPro u = true) :
  let w1 := (getOrCreateUserData (default "" (reqDeviceId req))
               (reqUserId req) w).2 in
  let r := postAnalysis req w in
  users r.2 = users w1
  ∧ (trace r.2 = trace w1
     ∨ trace r.2 = trace w1 ++ [JobCreated (newAnalysisId req)])
  ∧ match signedUrl req with
    | Ok uploadUrl =>
        (head (faults w1) ≠ Some true →
         r.1 = Ok {| statusCode := 201;
                     body := CreatedBody (newAnalysisId req) uploadUrl
                                         "pending_upload" |}
         ∧ statusOf (newAnalysisId req) r.2 = Some queued)
        ∧ (head (faults w1) = Some true →
           r.1 = Ok {| statusCode := 500;
                       body := ErrorBody "ANALYSIS_FAILED"
                                 "Failed to create analysis job" |}
           ∧ analyses r.2 = analyses w1 ∧ trace r.2 = trace w1)
    | Throw e =>
        r.1 = (handleError "Failed to create analysis job" e w1).1
        ∧ analyses r.2 = analyses w1 ∧ trace r.2 = trace w1
    end.
Proof.
  intros w1 r. subst r.
  rewrite (postAnalysis_after_read req w angleHint u Hbody Hdev Hread).
  fold w1. set (m := try_catch _ _). as_post m w1. subst m.
  unfold afterEntitlementRead. rewrite Hpro. cbn [negb andb].
  unfold generateSignedUploadUrl, createAnalysisJob.
  destruct (signedUrl req) as [uploadUrl | e] eqn:Hsign.
  - unfold handleError.
    repeat first [ post_step | post_case ]; world_simpl;
      (split; [done |]); (split; [by auto |]);
      (split; intros Hup; [| done]); try done.
    unfold statusOf. world_simpl. rewrite lookup_insert_eq. done.
  - repeat post_step.
    unfold post, handleError, json, ret.
    destruct e as [| ? ? [|]|]; cbn [fst snd]; auto.
Qed.

End EntitlementRoutes.

(** ** Properties of the purchase routes *)

Section Purchases.

(** The owner of [createdWorld] after a purchase was synced. *)
Definition proWorld : World :=
  (postPurchasesSync true (Some "dev") None createdWorld).2.

Lemma postAnalysis_pro_owner_witness :
  (UserData.freeAnalysesUsed <$> users proWorld !! "dev") = Some 1%Z
  ∧ (postAnalysis secondRequest proWorld).1
    = Ok {| statusCode := 201;
            body := CreatedBody "J2" "https://upload2" "pending_upload" |}
  ∧ users (postAnalysis secondRequest proWorld).2 = users proWorld.
Proof.
  eassert ((getOrCreateUserData (default "" (reqDeviceId secondRequest))
              (reqUserId secondRequest) proWorld).1 = Ok _) as Hread
    by (vm_compute; reflexivity).
  pose proof (postAnalysis_pro_owner secondRequest proWorld (Some side) _
                eq_refl eq_refl Hread eq_refl) as (Husers & _ & Hserved).
  split; [by vm_compute |].
  cbn [signedUrl secondRequest] in Hserved.
  destruct Hserved as [Hserved _].
  destruct Hserved as [Hreply _]; [by vm_compute |].
  split; [exact Hreply |].
  rewrite Husers. by vm_compute.
Defined.

(** X5. Syncing a purchase marks an existing user record as pro and changes
    nothing else in it; for an owner without a user record the update is
    rejected, the answer is 500 SYNC_FAILED and no record is created. *)
Theorem postPurchasesSync_existing_record_only (dev : string)
    (userId : option string) (w : World)
    (Hdev : dev ≠ "")
    (Hup : head (faults w) ≠ Some true) :
  let docId := or_else userId dev in
  let r := postPurchasesSync true (Some dev) userId w in
  analyses r.2 = analyses w ∧ sessions r.2 = sessions w ∧ tasks r.2 = tasks w
  ∧ match users w !! docId with
    | Some u =>
        r.1 = Ok (Json200 {| e_isPro := true; e_remainingFreeAnalyses := 0 |})
        ∧ users r.2 = <[docId := applyProStatus true u]> (users w)
        ∧ UserData.freeAnalysesUsed (applyProStatus true u)
          = UserData.freeAnalysesUsed u
    | None =>
        r.1 = Ok (ErrorReply 500 "SYNC_FAILED" "Failed to sync purchase")
        ∧ users r.2 = users w
    end.
Proof.
  intros docId r. subst r. apply truthy_Some in Hdev.
  as_post (postPurchasesSync true (Some dev) userId) w.
  unfold postPurchasesSync, updateProStatus, replyError, createError.
  rewrite Hdev. cbn [negb].
  change (default "" (Some dev)) with dev. fold docId.
  repeat first [ post_step | post_case ]; world_simpl; done.
Qed.

Lemma postPurchasesSync_existing_record_only_witness :
  (postPurchasesSync true (Some "dev") None emptyWorld).1
  = Ok (ErrorReply 500 "SYNC_FAILED" "Failed to sync purchase")
  ∧ users (postPurchasesSync true (Some "dev") None emptyWorld).2 = ∅.
Proof.
  assert ("dev" ≠ "") as Hdev by done.
  assert (head (faults emptyWorld) ≠ Some true) as Hup by done.
  pose proof (postPurchasesSync_existing_record_only "dev" None emptyWorld
                Hdev Hup) as (_ & _ & _ & Hcase).
  exact Hcase.
Defined.

(** *** The webhook *)

Lemma someM_activePro toLowerCase items w :
  ((someM (activePro toLowerCase) items w).1 = Ok false
   ∨ ∃ e, (someM (activePro toLowerCase) items w).1 = Throw e)
  ∧ (someM (activePro toLowerCase) items w).2 = w.
Proof.
  induction items as [| item rest IH]; [by split; [left |] |].
  change (someM (activePro toLowerCase) (item :: rest))
    with (let! found := activePro toLowerCase item in
          if found then ret true
          else someM (activePro toLowerCase) rest).
  as_post (let! found := activePro toLowerCase item in
           if found then ret true else someM (activePro toLowerCase) rest) w.
  unfold activePro, getProp.
  destruct item; repeat first [ post_step | post_case ];
    try (split; [right; by eexists | done]);
    apply IH.
Qed.

Lemma arraySome_activePro toLowerCase v w :
  ((arraySome (activePro toLowerCase) v w).1 = Ok false
   ∨ ∃ e, (arraySome (activePro toLowerCase) v w).1 = Throw e)
  ∧ (arraySome (activePro toLowerCase) v w).2 = w.
Proof.
  destruct v; try (split; [right; by eexists | done]).
  apply someM_activePro.
Qed.

Lemma post_arraySome_activePro toLowerCase v w Q :
  Q (Ok false) w →
  (∀ e, Q (Throw e) w) →
  post (arraySome (activePro toLowerCase) v) w Q.
Proof.
  intros Hfalse Hthrow. unfold post.
  destruct (arraySome_activePro toLowerCase v w) as [[Hr | [e Hr]] Hw];
    rewrite Hr, Hw; auto.
Qed.

Lemma post_getProp v name w Q :
  (∀ found, Q (Ok found) w) →
  Q (Throw (ErrorObj "TypeError")) w →
  post (getProp v name) w Q.
Proof.
  intros Hok Hthrow. unfold getProp.
  repeat first [ post_step | post_case ]; auto.
Qed.

Lemma post_getPropOptional v name w Q :
  (∀ found, Q (Ok found) w) →
  Q (Throw (ErrorObj "TypeError")) w →
  post (getPropOptional v name) w Q.
Proof.
  intros Hok Hthrow. unfold getPropOptional.
  destruct v as [[] |]; first [ by apply post_getProp | by apply post_ret ].
Qed.

(** X6. The webhook always acknowledges, touches nothing but the pro flag of
    an existing user record, and never sets that flag: whatever the body,
    a user record afterwards is the one before, or the one before with
    [isPro] false.  No entitlement entry passes the test of the handler
    (a string has no [expires_date], anything else has no
    [toLowerCase]), so a purchase event grants nothing. *)
Theorem postRevenuecatWebhook_never_grants_pro
    (toLowerCase : string → string) (body : Json) (w : World) :
  let r := postRevenuecatWebhook toLowerCase body w in
  (∃ ack, r.1 = Ok ack ∧ received ack = true)
  ∧ analyses r.2 = analyses w ∧ sessions r.2 = sessions w
  ∧ tasks r.2 = tasks w
  ∧ ∀ docId,
      users r.2 !! docId = users w !! docId
      ∨ ∃ u, users w !! docId = Some u
             ∧ users r.2 !! docId = Some (applyProStatus false u).
Proof.
  intros r. subst r.
  as_post (postRevenuecatWebhook toLowerCase body) w.
  unfold postRevenuecatWebhook, updateProStatusOf, updateProStatus.
  repeat first
    [ match goal with
      | |- post (getProp _ _) _ _ => apply post_getProp; [intros ? |]
      | |- post (getPropOptional _ _) _ _ =>
          apply post_getPropOptional; [intros ? |]
      | |- post (arraySome _ _) _ _ =>
          apply post_arraySome_activePro; [| intros ?]
      end
    | post_step
    | progress cbn [andb negb]
    | post_case ];
    world_simpl; try discriminate;
    (split; [eexists; split; reflexivity |]); repeat (split; [done |]);
    intros docId; try (by left).
  all: match goal with
       | |- context [<[?k:=_]> _ !! ?d] =>
           destruct (decide (k = d)) as [<- | Hne];
             [ right; eexists; split; [done |]; by rewrite lookup_insert_eq
             | left; by rewrite lookup_insert_ne ]
       end.
Qed.

End Purchases.

(** ** More about the worker *)

Section WorkerEffects.

Lemma length_omap_le {A B} (f : A → option B) (l : list A) :
  length (omap f l) ≤ length l.
Proof.
  induction l as [| a l IH]; csimpl; [done |].
  destruct (f a); csimpl; lia.
Qed.

(** The pose step hands at most five URLs to the rest of the run. *)
Lemma post_poseStep_bounded analysisId framesDir skeletonOutputDir c w Q :
  (∀ r f, length r.2 ≤ 5 → Q (Ok r) (set_disk f w)) →
  post (poseStep analysisId framesDir skeletonOutputDir c) w Q.
Proof.
  intros HQ. unfold poseStep, runMediaPipePose, uploadSkeletonFrames.
  repeat first [ post_step | post_case ];
    first [ apply HQ | rewrite <- (set_disk_id w); apply HQ ];
    cbn [snd length]; try lia;
    (etrans; [apply length_omap_le |]);
    apply selectKeySkeletonFrames_in_bounds.
Qed.

(** X7. One run of the worker writes to the job and the session of its own
    analysis id and to nothing else in the ledger: the user records (and
    with them the usage counts), the task queue, every other job and every
    other session are left as they were.  It never creates a job record,
    and on the record it updates the owner, the video path, the angle
    hint and the creation time stay. *)
Theorem processAnalysisTask_own_records_only
    (params : TaskPayload) (c : Collaborators) (w : World) :
  let id := t_analysisId params in
  let w' := (processAnalysisTask params c w).2 in
  users w' = users w ∧ tasks w' = tasks w
  ∧ (∀ other, other ≠ id → analyses w' !! other = analyses w !! other)
  ∧ (∀ other, other ≠ id → sessions w' !! other = sessions w !! other)
  ∧ match analyses w !! id with
    | None => analyses w' !! id = None ∧ sessions w' = sessions w
    | Some j =>
        ∃ j', analyses w' !! id = Some j'
              ∧ AnalysisJob.deviceId j' = AnalysisJob.deviceId j
              ∧ AnalysisJob.userId j' = AnalysisJob.userId j
              ∧ AnalysisJob.videoPath j' = AnalysisJob.videoPath j
              ∧ AnalysisJob.angleHint j' = AnalysisJob.angleHint j
              ∧ AnalysisJob.createdAt j' = AnalysisJob.createdAt j
    end.
Proof.
  intros id w'. subst id w'.
  as_post (processAnalysisTask params c) w.
  rewrite processAnalysisTask_unfold. cbv zeta.
  unfold updateAnalysisStatus, saveAnalysisResults, updateAnalysisDoc,
    getUserSessions, analyzeShootingForm, saveSession.
  destruct (analyses w !! t_analysisId params) as [j |] eqn:Hjob;
    post_ledger; world_simpl;
    (split; [done |]); (split; [done |]);
    (split; [intros other Hne; by rewrite ?lookup_insert_ne by done |]);
    (split; [intros other Hne; by rewrite ?lookup_insert_ne by done |]);
    rewrite ?lookup_insert_eq, ?Hjob;
    first [ done | eexists; split; [done |]; done ].
Qed.

(** X8. The annotated frames stored for a job are bounded: after a run the
    list of skeleton frame URLs of its job is the one stored before, or a
    list of at most five URLs. *)
Theorem processAnalysisTask_skeleton_urls_bounded
    (params : TaskPayload) (c : Collaborators) (w : World) :
  let id := t_analysisId params in
  let w' := (processAnalysisTask params c w).2 in
  (AnalysisJob.skeletonFrameUrls <$> analyses w' !! id)
  = (AnalysisJob.skeletonFrameUrls <$> analyses w !! id)
  ∨ ∃ urls,
      (AnalysisJob.skeletonFrameUrls <$> analyses w' !! id) = Some (Some urls)
      ∧ length urls ≤ 5.
Proof.
  intros id w'. subst id w'.
  as_post (processAnalysisTask params c) w.
  rewrite processAnalysisTask_unfold. cbv zeta.
  unfold updateAnalysisStatus, saveAnalysisResults, updateAnalysisDoc,
    getUserSessions, analyzeShootingForm, saveSession.
  destruct (analyses w !! t_analysisId params) as [j |] eqn:Hjob;
    repeat first
      [ lazymatch goal with
        | |- post (poseStep _ _ _ _) _ _ =>
            apply post_poseStep_bounded; intros ? ? ?
        end
      | post_ledger_step ];
    world_simpl; rewrite ?lookup_insert_eq, ?Hjob; simpl;
    first [ by left | right; eexists; split; [done |]; done ].
Qed.

End WorkerEffects.

Section WorkerOutcome.

(** X9. A run that succeeds: Cloud Storage, the frame extractor,
    Firestore and the coaching collaborator answer (the landmark step may
    fail).  The run returns; it writes [processing] four times, then the
    results, the session and [complete], in this order; the session is
    stored under the id of the job, for the device and the video of the
    task, with the category stored in the job.  Afterwards
    the downloaded video and the frames directory are gone, the skeleton
    directory too unless a plain file stood in its place and the landmark
    step created none, and every other path of the disk is as before. *)
Theorem processAnalysisTask_success_effects
    (params : TaskPayload) (c : Collaborators) (w : World)
    (j : AnalysisJob.t) (names : list string)
    (analysis : Gemini.CoachingAnalysisResult)
    (Hjob : analyses w !! t_analysisId params = Some j)
    (Hup : faults w = [])
    (Hdownload : download c = Ok tt)
    (Hframes : extractFrames c = Ok names)
    (Hgemini : gemini c = ParsedJson analysis) :
  let id := t_analysisId params in
  let video := "/tmp/" +:+ uuid c +:+ ".mp4" in
  let frames := "/tmp/" +:+ id +:+ "-frames" in
  let skeletons := "/tmp/" +:+ id +:+ "-skeletons" in
  let r := processAnalysisTask params c w in
  r.1 = Ok tt
  ∧ trace r.2
    = trace w ++ [ StatusWritten id processing; StatusWritten id processing;
                   StatusWritten id processing; StatusWritten id processing;
                   StatusWritten id complete; SessionSaved id;
                   StatusWritten id complete ]
  ∧ (∃ s j',
       sessions r.2 !! id = Some s ∧ analyses r.2 !! id = Some j'
       ∧ SessionSummary.deviceId s = t_deviceId params
       ∧ SessionSummary.videoPath s = t_videoPath params
       ∧ AnalysisJob.status j' = complete
       ∧ AnalysisJob.correctionCategory j'
         = Some (SessionSummary.correctionCategory s))
  ∧ disk r.2 !! video = None
  ∧ disk r.2 !! frames = None
  ∧ (disk w !! skeletons ≠ Some File → disk r.2 !! skeletons = None)
  ∧ ∀ p, p ≠ video → p ≠ frames → p ≠ skeletons →
         disk r.2 !! p = disk w !! p.
Proof.
  intros id video frames skeletons r. subst id r.
  as_post (processAnalysisTask params c) w.
  worker_unfold.
  rewrite Hdownload, Hframes, Hgemini.
  assert (skeletons ≠ video) as N1 by apply skeletons_ne_video.
  assert (frames ≠ video) as N2 by apply frames_ne_video.
  assert (skeletons ≠ frames) as N3 by apply skeletons_ne_frames.
  change ("/tmp/" +:+ uuid c +:+ ".mp4") with video.
  change ("/tmp/" +:+ t_analysisId params +:+ "-frames") with frames.
  change ("/tmp/" +:+ t_analysisId params +:+ "-skeletons") with skeletons.
  clearbody video frames skeletons.
  disk_run; world_simpl; rewrite ?lookup_insert_eq.
  all: split; [done |].
  all: split; [by rewrite <- ?app_assoc |].
  all: split; [do 2 eexists; split; [done |]; split; [done |]; done |].
  all: disk_leaf.
Qed.

Lemma processAnalysisTask_success_effects_witness :
  (processAnalysisTask samplePayload sampleCollaborators createdWorld).1 = Ok tt
  ∧ disk (processAnalysisTask samplePayload sampleCollaborators createdWorld).2
      !! ("/tmp/" +:+ uuid sampleCollaborators +:+ ".mp4") = None.
Proof.
  eassert (analyses createdWorld !! t_analysisId samplePayload = Some _) as Hjob
    by (vm_compute; reflexivity).
  assert (faults createdWorld = []) as Hup by (by vm_compute).
  assert (download sampleCollaborators = Ok tt) as Hdownload by reflexivity.
  eassert (extractFrames sampleCollaborators = Ok _) as Hframes by reflexivity.
  eassert (gemini sampleCollaborators = ParsedJson _) as Hgemini by reflexivity.
  pose proof (processAnalysisTask_success_effects
                samplePayload sampleCollaborators createdWorld _ _ _
                Hjob Hup Hdownload Hframes Hgemini)
    as (Hret & _ & _ & Hvideo & _).
  split; [exact Hret | exact Hvideo].
Defined.

(** X10. With Firestore available, a run on an existing job ends in one of
    two ways: it returns and the job is [complete] with its session saved,
    or it throws and the job is [failed], no session was saved, and the
    message of the error (unless empty) is stored as the error of the
    job. *)
Theorem processAnalysisTask_terminal_status
    (params : TaskPayload) (c : Collaborators) (w : World) (j : AnalysisJob.t)
    (Hjob : analyses w !! t_analysisId params = Some j)
    (Hup : faults w = []) :
  let id := t_analysisId params in
  let r := processAnalysisTask params c w in
  (r.1 = Ok tt ∧ statusOf id r.2 = Some complete
   ∧ is_Some (sessions r.2 !! id))
  ∨ (∃ e, r.1 = Throw e ∧ statusOf id r.2 = Some failed
          ∧ sessions r.2 = sessions w
          ∧ (errorMessage e ≠ "" →
             analyses r.2 !! id ≫= AnalysisJob.error
             = Some (errorMessage e))).
Proof.
  intros id r. subst id r.
  as_post (processAnalysisTask params c) w.
  worker_unfold.
  assert ("/tmp/" +:+ t_analysisId params +:+ "-skeletons"
          ≠ "/tmp/" +:+ uuid c +:+ ".mp4") as N1 by apply skeletons_ne_video.
  assert ("/tmp/" +:+ t_analysisId params +:+ "-frames"
          ≠ "/tmp/" +:+ uuid c +:+ ".mp4") as N2 by apply frames_ne_video.
  assert ("/tmp/" +:+ t_analysisId params +:+ "-skeletons"
          ≠ "/tmp/" +:+ t_analysisId params +:+ "-frames") as N3
    by apply skeletons_ne_frames.
  revert N1 N2 N3.
  generalize ("/tmp/" +:+ uuid c +:+ ".mp4") as video.
  generalize ("/tmp/" +:+ t_analysisId params +:+ "-frames") as frames.
  generalize ("/tmp/" +:+ t_analysisId params +:+ "-skeletons") as skeletons.
  intros skeletons frames video N1 N2 N3.
  disk_run; world_simpl; unfold statusOf; world_simpl;
    rewrite ?lookup_insert_eq;
    first
      [ left; split; [done |]; split; [done |]; by eexists
      | right; eexists; split; [done |]; split; [done |]; split; [done |];
        intros Hmessage%truthy_Some;
        cbn [mbind option_bind AnalysisJob.error applyStatusUpdate];
        by rewrite Hmessage ].
Qed.

Lemma processAnalysisTask_terminal_status_witness :
  statusOf (t_analysisId samplePayload)
    (processAnalysisTask samplePayload geminiDown createdWorld).2
  = Some failed.
Proof.
  eassert (analyses createdWorld !! t_analysisId samplePayload = Some _) as Hjob
    by (vm_compute; reflexivity).
  assert (faults createdWorld = []) as Hup by (by vm_compute).
  destruct (processAnalysisTask_terminal_status
              samplePayload geminiDown createdWorld _ Hjob Hup)
    as [(Hret & _) | (e & _ & Hfailed & _)].
  - by vm_compute in Hret.
  - exact Hfailed.
Defined.

(** X11. A task for an analysis id that has no job record: the first
    status write is rejected, nothing is downloaded or analysed, no
    record, session or status is written, and the run throws NOT_FOUND.
    On the disk only the skeleton directory of that id may go. *)
Theorem processAnalysisTask_missing_job
    (params : TaskPayload) (c : Collaborators) (w : World)
    (Hjob : analyses w !! t_analysisId params = None)
    (Hup : faults w = []) :
  let r := processAnalysisTask params c w in
  r.1 = Throw (ErrorObj "NOT_FOUND")
  ∧ analyses r.2 = analyses w ∧ sessions r.2 = sessions w
  ∧ users r.2 = users w ∧ tasks r.2 = tasks w
  ∧ trace r.2 = trace w ∧ llmCalls r.2 = llmCalls w
  ∧ ∀ p, p ≠ "/tmp/" +:+ t_analysisId params +:+ "-skeletons" →
         disk r.2 !! p = disk w !! p.
Proof.
  intros r. subst r.
  as_post (processAnalysisTask params c) w.
  worker_unfold.
  generalize ("/tmp/" +:+ t_analysisId params +:+ "-skeletons") as skeletons.
  intros skeletons.
  disk_run; world_simpl; repeat (split; [done |]);
    intros p Hp; by rewrite ?lookup_delete_ne by done.
Qed.

Lemma processAnalysisTask_missing_job_witness :
  (processAnalysisTask samplePayload sampleCollaborators emptyWorld).1
  = Throw (ErrorObj "NOT_FOUND")
  ∧ analyses (processAnalysisTask samplePayload sampleCollaborators
                emptyWorld).2 = ∅.
Proof.
  assert (analyses emptyWorld !! t_analysisId samplePayload = None) as Hjob
    by done.
  assert (faults emptyWorld = []) as Hup by done.
  pose proof (processAnalysisTask_missing_job samplePayload
                sampleCollaborators emptyWorld Hjob Hup)
    as (Hret & Hanalyses & _).
  split; [exact Hret | exact Hanalyses].
Defined.

End WorkerOutcome.

(** ** services/cv/angle_calculator.ts : the assessment of the angles *)

Record Assessment :=
  { as_metric : string;
    as_value : Q;
    as_ideal : string;
    as_status : AngleCalculator.Status;
    as_feedback : string }.

Definition assessShootingAngles (angles : ShootingAngles) : list Assessment :=
  let elbowCheck :=
    AngleCalculator.isInIdealRange (elbowAngleAtRelease angles)
      AngleCalculator.elbowAngle in
  let kneeCheck :=
    AngleCalculator.isInIdealRange (kneeFlexionAtSetPoint angles)
      AngleCalculator.kneeFlexion in
  let leanCheck :=
    AngleCalculator.isInIdealRange (Qabs (bodyLean angles))
      AngleCalculator.bodyLean in
  let heightCheck :=
    AngleCalculator.isInIdealRange (setPointHeight angles)
      AngleCalculator.setPointHeight in
  [ {| as_metric := "Elbow Angle at Release";
       as_value := elbowAngleAtRelease angles;
       as_ideal := "85-100°";
       as_status := AngleCalculator.status elbowCheck;
       as_feedback :=
         if AngleCalculator.inRange elbowCheck then "Good elbow position"
         else if AngleCalculator.Qlt_bool (elbowAngleAtRelease angles)
                   (AngleCalculator.min
                      (AngleCalculator.IDEAL_RANGES AngleCalculator.elbowAngle))
         then "Elbow is flared out - keep it more under the ball"
         else "Elbow is too tucked - allow more extension" |};
    {| as_metric := "Knee Flexion at Set Point";
       as_value := kneeFlexionAtSetPoint angles;
       as_ideal := "30-45°";
       as_status := AngleCalculator.status kneeCheck;
       as_feedback :=
         if AngleCalculator.inRange kneeCheck then "Good leg load"
         else if AngleCalculator.Qlt_bool (kneeFlexionAtSetPoint angles)
                   (AngleCalculator.min
                      (AngleCalculator.IDEAL_RANGES AngleCalculator.kneeFlexion))
         then "Legs too straight - bend knees more for power"
         else "Knees too bent - you're losing upward momentum" |};
    {| as_metric := "Body Lean";
       as_value := bodyLean angles;
       as_ideal := "<5° from vertical";
       as_status := AngleCalculator.status leanCheck;
       as_feedback :=
         if AngleCalculator.inRange leanCheck then "Good balance"
         else if AngleCalculator.Qlt_bool 5 (bodyLean angles)
         then "Leaning backward - stay more vertical"
         else "Leaning forward - stay more vertical" |};
    {| as_metric := "Set Point Height";
       as_value := setPointHeight angles;
       as_ideal := ">1.0 (above forehead)";
       as_status := AngleCalculator.status heightCheck;
       as_feedback :=
         if AngleCalculator.inRange heightCheck then "Good set point height"
         else "Set point too low - raise the ball higher before release" |} ].

(** ** Pose analysis with Gemini Vision : the frames looked at *)

(** [selectKeyFrames(totalFrames)], called with the length of an array;
    0.25, 0.5 and 0.75 are exact in binary, so [Math.floor(n * 0.75)] is the
    integer quotient of [3 n] by 4. *)
Definition selectKeyFrames (totalFrames : nat) : list Z :=
  if bool_decide (totalFrames ≤ 5)%nat then Z.of_nat <$> seq 0 totalFrames
  else
    let n := Z.of_nat totalFrames in
    let indices := [ 0; n / 4; n / 2; (n * 3) / 4; n - 1 ]%Z in
    SkeletonGenerator.spread_Set [] indices.

(** [keyFrameIndices.map(i => framePaths[i])] of [analyzePoseFromFrames] *)
Definition keyFramesOf (framePaths : list string) : list (option string) :=
  SkeletonGenerator.at_index framePaths
    <$> selectKeyFrames (length framePaths).

(** ** services/cv/video.ts : how many frames are extracted *)

(** [extractShootingFrames]: the options it passes to [extractFrames], for
    the frame rate [getVideoMetadata] reports (a ratio of two integers
    with a positive denominator, or 30). *)
Definition shootingFps (fps : Q) : Q := Qmin 15 fps.

Definition shootingMaxFrames (fps : Q) : Z :=
  Z.min 50 (Qfloor (shootingFps fps * 5)).

Definition startsWith (prefix s : string) : bool := String.prefix prefix s.

Definition endsWith (suffix s : string) : bool :=
  bool_decide (String.length suffix ≤ String.length s)%nat
  && bool_decide (String.substring (String.length s - String.length suffix)
                    (String.length suffix) s = suffix).

(** [.sort()] of an array of strings: by code units. *)
Definition string_le (a b : string) : Prop := String.leb a b = true.

Global Instance string_le_dec a b : Decision (string_le a b).
Proof. unfold string_le. apply _. Defined.

Definition sort_strings (l : list string) : list string :=
  merge_sort string_le l.

(** The [end] handler of [extractFrames] on the listing of the output
    directory; [path.join] puts one separator between the directory and
    the file name. *)
Definition framesFound (files : list string) (outputDir : string)
    (maxFrames : Z) : list string :=
  (λ f, outputDir +:+ "/" +:+ f)
    <$> take (Z.to_nat maxFrames)
          (sort_strings
             (filter (λ f, startsWith "frame-" f && endsWith ".jpg" f = true)
                     files)).

(** ** Properties of the measurements *)

Section Measurements.

Local Open Scope Q_scope.

Definition goodFeedback : list string :=
  [ "Good elbow position"; "Good leg load"; "Good balance";
    "Good set point height" ].

(** X13. [assessShootingAngles] answers with four assessments, in the
    order elbow, knee, lean, set point, each carrying the measurement as it
    was given (the lean with its sign); the feedback of an assessment is
    its sentence of praise exactly when its status is [good]. *)
Theorem assessShootingAngles_feedback_matches_status (angles : ShootingAngles) :
  (as_value <$> assessShootingAngles angles)
  = [ elbowAngleAtRelease angles; kneeFlexionAtSetPoint angles;
      bodyLean angles; setPointHeight angles ]
  ∧ Forall (λ a, as_status a = AngleCalculator.good
                 ↔ as_feedback a ∈ goodFeedback)
           (assessShootingAngles angles).
Proof.
  split; [done |].
  unfold assessShootingAngles, AngleCalculator.isInIdealRange,
    AngleCalculator.classifyAgainst, goodFeedback.
  repeat apply Forall_cons_2; [.. | apply Forall_nil_2];
    cbn [as_status as_feedback];
    match goal with
    | |- context [if ?b && ?b' then _ else _] => destruct (b && b')
    end;
    cbn [AngleCalculator.status AngleCalculator.inRange];
    first
      [ split; [intros _; by apply (bool_decide_unpack _) | done]
      | split;
          [ by repeat case_match
          | intros Hin; exfalso; repeat case_match;
            apply (bool_decide_pack _) in Hin; by vm_compute in Hin ] ].
Qed.

(** X14. The lean is judged by its size, whatever its direction: [good]
    up to 5 degrees, [close] above 5 and up to 10, [needs_work] above 10.
    The direction only picks the sentence: backward for a lean above 5,
    forward for one below -5. *)
Theorem assessShootingAngles_body_lean (angles : ShootingAngles) :
  let lean := bodyLean angles in
  ∃ e k l h,
    assessShootingAngles angles = [e; k; l; h]
    ∧ (as_status l = AngleCalculator.good ↔ Qabs lean <= 5)
    ∧ (as_status l = AngleCalculator.close ↔ 5 < Qabs lean ∧ Qabs lean <= 10)
    ∧ (as_status l = AngleCalculator.needs_work ↔ 10 < Qabs lean)
    ∧ (as_feedback l = "Leaning backward - stay more vertical" ↔ 5 < lean)
    ∧ (as_feedback l = "Leaning forward - stay more vertical" ↔ lean < -5).
Proof.
  intros lean. do 4 eexists. split; [reflexivity |].
  cbn [as_status as_feedback]. fold lean.
  unfold AngleCalculator.isInIdealRange, AngleCalculator.classifyAgainst,
    AngleCalculator.Qlt_bool.
  cbn [AngleCalculator.IDEAL_RANGES AngleCalculator.min AngleCalculator.max].
  pose proof (Qabs_nonneg lean) as Hnonneg.
  assert (Qle_bool (-5) (Qabs lean) = true) as ->.
  { apply Qle_bool_iff. lra. }
  cbn [andb].
  destruct (Qle_bool (Qabs lean) 5) eqn:Hsmall;
    cbn [AngleCalculator.status AngleCalculator.inRange].
  - apply Qle_bool_iff in Hsmall.
    pose proof (proj1 (Qabs_Qle_condition _ _) Hsmall) as [Hlo Hhi].
    repeat split; try done; intros; lra.
  - apply Qle_bool_false in Hsmall.
    cbn [negb].
    assert (5 < lean ∨ lean < -5) as Hside.
    { revert Hsmall. apply Qabs_case; intros; [left | right]; lra. }
    destruct (Qle_bool (Qabs lean - 5) ((5 - -5) * (1 # 2))) eqn:Hclose.
    + apply Qle_bool_iff in Hclose.
      destruct (Qle_bool lean 5) eqn:Hback; cbn [negb];
        [apply Qle_bool_iff in Hback | apply Qle_bool_false in Hback];
        repeat split; try done; intros; try lra; destruct Hside; lra.
    + apply Qle_bool_false in Hclose.
      destruct (Qle_bool lean 5) eqn:Hback; cbn [negb];
        [apply Qle_bool_iff in Hback | apply Qle_bool_false in Hback];
        repeat split; try done; intros; try lra; destruct Hside; lra.
Qed.

(** X15. The set point has one sentence for every value outside its band:
    a set point above 1.5 is told it is too low, with the status [close]
    up to 1.75 and [needs_work] above. *)
Theorem assessShootingAngles_high_set_point (angles : ShootingAngles)
    (Hhigh : 3 # 2 < setPointHeight angles) :
  ∃ e k l h,
    assessShootingAngles angles = [e; k; l; h]
    ∧ as_feedback h
      = "Set point too low - raise the ball higher before release"
    ∧ (as_status h = AngleCalculator.close ↔ setPointHeight angles <= 7 # 4)
    ∧ (as_status h = AngleCalculator.needs_work
       ↔ 7 # 4 < setPointHeight angles).
Proof.
  do 4 eexists. split; [reflexivity |].
  cbn [as_status as_feedback].
  unfold AngleCalculator.isInIdealRange, AngleCalculator.classifyAgainst,
    AngleCalculator.Qlt_bool.
  cbn [AngleCalculator.IDEAL_RANGES AngleCalculator.min AngleCalculator.max].
  set (height := setPointHeight angles) in *.
  assert (Qle_bool 1 height = true) as -> by (apply Qle_bool_iff; lra).
  assert (Qle_bool height (3 # 2) = false) as ->
    by (apply Qle_bool_false; lra).
  cbn [andb negb AngleCalculator.status AngleCalculator.inRange].
  split; [done |].
  destruct (Qle_bool (height - (3 # 2)) (((3 # 2) - 1) * (1 # 2))) eqn:Hclose;
    [apply Qle_bool_iff in Hclose | apply Qle_bool_false in Hclose];
    repeat split; try done; intros; lra.
Qed.

Lemma assessShootingAngles_high_set_point_witness :
  ∃ h, last (assessShootingAngles
               {| elbowAngleAtRelease := 92; kneeFlexionAtSetPoint := 40;
                  bodyLean := 2; setPointHeight := 2; releaseFrame := 4;
                  confidence := high |}) = Some h
       ∧ as_feedback h
         = "Set point too low - raise the ball higher before release".
Proof.
  set (angles := {| elbowAngleAtRelease := 92; kneeFlexionAtSetPoint := 40;
                    bodyLean := 2; setPointHeight := 2; releaseFrame := 4;
                    confidence := high |}).
  assert (3 # 2 < setPointHeight angles) as Hhigh by (by vm_compute).
  destruct (assessShootingAngles_high_set_point angles Hhigh)
    as (e & k & l & h & Hlist & Hfeedback & _).
  exists h. rewrite Hlist. split; [done | exact Hfeedback].
Defined.

End Measurements.

(** ** Properties of the frame selections *)

Section Frames.

Lemma seq_Z_sorted start len :
  StronglySorted Z.lt (Z.of_nat <$> seq start len).
Proof.
  revert start. induction len as [| len IH]; intros start; simpl.
  - constructor.
  - constructor; [apply IH |].
    apply Forall_fmap, Forall_forall. intros i Hi%elem_of_seq. simpl. lia.
Qed.

Lemma selectKeyFrames_spec (n : nat) :
  let indices := selectKeyFrames n in
  length indices = Nat.min n 5
  ∧ StronglySorted Z.lt indices
  ∧ Forall (λ i, 0 ≤ i < Z.of_nat n)%Z indices
  ∧ (0 < n → head indices = Some 0%Z ∧ last indices = Some (Z.of_nat n - 1)%Z).
Proof.
  intros indices. subst indices. unfold selectKeyFrames.
  case_bool_decide as Hsmall.
  - split; [rewrite length_fmap, length_seq; lia |].
    split; [apply seq_Z_sorted |].
    split.
    { apply Forall_fmap, Forall_forall. intros i Hi%elem_of_seq. simpl. lia. }
    intros Hpos. destruct n as [| m]; [lia |]. split; [done |].
    rewrite seq_S, fmap_app.
    change (Z.of_nat <$> [0 + m]) with [Z.of_nat (0 + m)].
    rewrite last_snoc. f_equal. lia.
  - set (z := Z.of_nat n). assert (5 < z)%Z as Hz by lia.
    assert (0 < z / 4 ∧ z / 4 < z / 2 ∧ z / 2 < z * 3 / 4
            ∧ z * 3 / 4 < z - 1)%Z as (H1 & H2 & H3 & H4).
    { repeat split; Z.div_mod_to_equations; lia. }
    cbn [SkeletonGenerator.spread_Set].
    rewrite !bool_decide_eq_false_2
      by (rewrite ?elem_of_cons, elem_of_nil; lia).
    split; [cbn; lia |].
    split; [repeat constructor; lia |].
    split; [repeat constructor; lia |].
    intros _. done.
Qed.

(** X16. The frames the vision analysis looks at: all of them when there
    are five or fewer, otherwise exactly five; the indices are increasing,
    start with the first frame, end with the last one and stay inside the
    array, so every selected frame is a path of the input. *)
Theorem selectKeyFrames_in_range (framePaths : list string) :
  let n := length framePaths in
  let indices := selectKeyFrames n in
  length indices = Nat.min n 5
  ∧ StronglySorted Z.lt indices
  ∧ Forall (λ i, 0 ≤ i < Z.of_nat n)%Z indices
  ∧ (0 < n → head indices = Some 0%Z ∧ last indices = Some (Z.of_nat n - 1)%Z)
  ∧ Forall (λ frame, ∃ path, frame = Some path ∧ path ∈ framePaths)
           (keyFramesOf framePaths).
Proof.
  intros n indices.
  destruct (selectKeyFrames_spec n) as (Hlen & Hsorted & Hrange & Hends).
  repeat split; try done; try by apply Hends.
  unfold keyFramesOf. fold n indices.
  apply Forall_fmap. eapply Forall_impl; [exact Hrange |].
  intros i Hi. simpl. by apply at_index_in_bounds.
Qed.

Lemma filter_sorted_elem (P : string → Prop) `{∀ x, Decision (P x)} files f :
  f ∈ sort_strings (filter P files) ↔ P f ∧ f ∈ files.
Proof.
  unfold sort_strings. rewrite merge_sort_Permutation.
  apply list_elem_of_filter.
Qed.

(** X17. The worker never takes more than 50 frames of a video: the
    frame rate asked of ffmpeg is at most 15, the number of frames kept is
    at most 50 and at most five seconds' worth at that rate, and every
    path returned is a file [frame-*.jpg] of the output directory. *)
Theorem extractShootingFrames_bounded (files : list string)
    (outputDir : string) (fps : Q) :
  let found := framesFound files outputDir (shootingMaxFrames fps) in
  (shootingFps fps <= 15)%Q
  ∧ (shootingMaxFrames fps ≤ 50)%Z
  ∧ (inject_Z (shootingMaxFrames fps) <= fps * 5)%Q
  ∧ ((10 <= fps)%Q → shootingMaxFrames fps = 50%Z)
  ∧ length found ≤ 50
  ∧ ∀ path, path ∈ found →
      ∃ f, path = outputDir +:+ "/" +:+ f ∧ f ∈ files
           ∧ startsWith "frame-" f = true ∧ endsWith ".jpg" f = true.
Proof.
  intros found. unfold shootingMaxFrames, shootingFps.
  split; [apply Q.le_min_l |].
  split; [apply Z.le_min_l |].
  split.
  { eapply Qle_trans; [rewrite <- Zle_Qle; apply Z.le_min_r |].
    eapply Qle_trans; [apply Qfloor_le |].
    pose proof (Q.le_min_r 15 fps). lra. }
  split.
  { intros Hfast. apply Z.min_l.
    change 50%Z with (Qfloor 50). apply Qfloor_resp_le.
    destruct (Q.min_spec 15 fps) as [[_ E] | [_ E]]; rewrite E; lra. }
  split.
  { subst found. unfold framesFound. rewrite length_fmap, length_take.
    pose proof (Z.le_min_l 50 (Qfloor (shootingFps fps * 5))).
    unfold shootingMaxFrames. lia. }
  intros path Hpath. subst found. unfold framesFound in Hpath.
  apply list_elem_of_fmap in Hpath as (f & -> & Hf).
  apply subseteq_take in Hf.
  apply filter_sorted_elem in Hf as [Hname Hfile].
  apply andb_true_iff in Hname as [Hprefix Hsuffix].
  by exists f.
Qed.

End Frames.

(** ** The analysis service of the app : waiting for a job *)

(** [progressMap] *)
Definition progressOf (stage : ProgressStage) : nat :=
  match stage with
  | uploading => 30
  | extracting_frames => 45
  | pose => 60
  | llm => 80
  | saving => 95
  end.

(** One call of [pollAnalysisCompletion]: how it settles, how many status
    requests it made, whether it asked for the result, and the percentages
    it handed to [onProgress]. *)
Record PollRun :=
  { settled : Outcome ResultPayload;
    statusRequests : nat;
    resultRequested : bool;
    reported : list nat }.

Definition report (shown : list nat) (run : PollRun) : PollRun :=
  {| settled := settled run;
     statusRequests := statusRequests run;
     resultRequested := resultRequested run;
     reported := shown ++ reported run |}.

Section Poll.

(** The answers of the backend: to the status request number [i] (from
    0), and to the request for the result. *)
Variable getAnalysisStatus : nat → Outcome StatusPayload.
Variable getAnalysisResult : Outcome ResultPayload.

(** The [while] loop, [remaining] being [maxAttempts - attempts]. *)
Fixpoint pollLoop (remaining attempts : nat) : PollRun :=
  match remaining with
  | 0 =>
      {| settled := Throw (ErrorObj "Analysis timed out");
         statusRequests := attempts;
         resultRequested := false;
         reported := [] |}
  | S remaining =>
      match getAnalysisStatus attempts with
      | Throw e =>
          {| settled := Throw e;
             statusRequests := S attempts;
             resultRequested := false;
             reported := [] |}
      | Ok status =>
          let shown :=
            match s_progressStage status with
            | Some stage => [progressOf stage]
            | None => []
            end in
          match s_status status with
          | complete =>
              {| settled := getAnalysisResult;
                 statusRequests := S attempts;
                 resultRequested := true;
                 reported := shown ++ [100] |}
          | failed =>
              {| settled :=
                   Throw (ErrorObj (or_else (s_error status) "Analysis failed"));
                 statusRequests := S attempts;
                 resultRequested := false;
                 reported := shown |}
          | _ => report shown (pollLoop remaining (S attempts))
          end
      end
  end.

Definition pollAnalysisCompletion (maxAttempts : nat) : PollRun :=
  pollLoop maxAttempts 0.

(** The job is still on its way: the status request was answered, with
    [queued] or [processing]. *)
Definition stillRunning (answer : Outcome StatusPayload) : bool :=
  match answer with
  | Ok status =>
      match s_status status with
      | queued | processing => true
      | _ => false
      end
  | Throw _ => false
  end.

(** What the loop makes of an answer that ends the wait. *)
Definition settle (answer : Outcome StatusPayload) : Outcome ResultPayload :=
  match answer with
  | Throw e => Throw e
  | Ok status =>
      match s_status status with
      | complete => getAnalysisResult
      | _ => Throw (ErrorObj (or_else (s_error status) "Analysis failed"))
      end
  end.

Lemma progressOf_below stage : progressOf stage < 100.
Proof. destruct stage; simpl; lia. Qed.

Lemma pollLoop_spec remaining attempts :
  let run := pollLoop remaining attempts in
  statusRequests run ≤ attempts + remaining
  ∧ Forall (λ p, p ≤ 100) (reported run)
  ∧ (resultRequested run = true →
     ∃ k status, k < remaining
                 ∧ getAnalysisStatus (attempts + k) = Ok status
                 ∧ s_status status = complete)
  ∧ (∀ k, k < remaining →
          (∀ i, i < k → stillRunning (getAnalysisStatus (attempts + i)) = true) →
          stillRunning (getAnalysisStatus (attempts + k)) = false →
          settled run = settle (getAnalysisStatus (attempts + k))
          ∧ statusRequests run = S (attempts + k))
  ∧ ((∀ i, i < remaining →
           stillRunning (getAnalysisStatus (attempts + i)) = true) →
     settled run = Throw (ErrorObj "Analysis timed out")
     ∧ statusRequests run = attempts + remaining
     ∧ resultRequested run = false).
Proof.
  revert attempts. induction remaining as [| remaining IH]; intros attempts.
  { cbn. repeat split; first [done | lia | intros; lia]. }
  specialize (IH (S attempts)). cbn zeta in IH.
  destruct IH as (IHcount & IHshown & IHresult & IHfirst & IHnone).
  assert (∀ k, S attempts + k = attempts + S k) as Hshift by (intros; lia).
  assert (Forall (λ p, p ≤ 100)
            match s_progressStage <$> (match getAnalysisStatus attempts with
                                       | Ok status => Some status
                                       | Throw _ => None
                                       end) with
            | Some (Some stage) => [progressOf stage]
            | _ => []
            end) as Hshown.
  { destruct (getAnalysisStatus attempts) as [[? [stage |] ?] |];
      cbn [fmap option_fmap option_map s_progressStage];
      [apply Forall_singleton | apply Forall_nil_2 ..].
    pose proof (progressOf_below stage). lia. }
  cbn zeta. cbn [pollLoop].
  destruct (getAnalysisStatus attempts) as [status | e] eqn:Hanswer.
  2: {
    cbn. split; [lia |]. split; [done |]. split; [done |]. split.
    - intros k Hk Hbefore Hstop. destruct k as [| k].
      + rewrite Nat.add_0_r, Hanswer. split; [done | lia].
      + specialize (Hbefore 0 ltac:(lia)).
        rewrite Nat.add_0_r, Hanswer in Hbefore. done.
    - intros Hall. specialize (Hall 0 ltac:(lia)).
      rewrite Nat.add_0_r, Hanswer in Hall. done. }
  simpl in Hshown.
  destruct (s_status status) eqn:Hstatus.
  - (* queued *)
    cbn [report settled statusRequests resultRequested reported].
    split; [lia |]. split; [by apply Forall_app |]. split.
    { intros Hasked. destruct (IHresult Hasked) as (k & st & Hk & Hget & Hst).
      exists (S k), st. rewrite <- Hshift. split; [lia | done]. }
    split.
    + intros k Hk Hbefore Hstop. destruct k as [| k].
      * rewrite Nat.add_0_r, Hanswer in Hstop. simpl in Hstop.
        by rewrite Hstatus in Hstop.
      * rewrite <- Hshift in *. apply IHfirst; [lia | | done].
        intros i Hi. rewrite Hshift. apply Hbefore. lia.
    + intros Hall. rewrite <- Hshift. apply IHnone.
      intros i Hi. rewrite Hshift. apply Hall. lia.
  - (* processing *)
    cbn [report settled statusRequests resultRequested reported].
    split; [lia |]. split; [by apply Forall_app |]. split.
    { intros Hasked. destruct (IHresult Hasked) as (k & st & Hk & Hget & Hst).
      exists (S k), st. rewrite <- Hshift. split; [lia | done]. }
    split.
    + intros k Hk Hbefore Hstop. destruct k as [| k].
      * rewrite Nat.add_0_r, Hanswer in Hstop. simpl in Hstop.
        by rewrite Hstatus in Hstop.
      * rewrite <- Hshift in *. apply IHfirst; [lia | | done].
        intros i Hi. rewrite Hshift. apply Hbefore. lia.
    + intros Hall. rewrite <- Hshift. apply IHnone.
      intros i Hi. rewrite Hshift. apply Hall. lia.
  - (* complete *)
    cbn [settled statusRequests resultRequested reported].
    split; [lia |]. split.
    { apply Forall_app. split; [done | by apply Forall_singleton]. }
    split.
    { intros _. exists 0, status. rewrite Nat.add_0_r. split; [lia | done]. }
    split.
    + intros k Hk Hbefore Hstop. destruct k as [| k].
      * rewrite Nat.add_0_r, Hanswer. simpl. rewrite Hstatus.
        split; [done | lia].
      * specialize (Hbefore 0 ltac:(lia)).
        rewrite Nat.add_0_r, Hanswer in Hbefore. simpl in Hbefore.
        by rewrite Hstatus in Hbefore.
    + intros Hall. specialize (Hall 0 ltac:(lia)).
      rewrite Nat.add_0_r, Hanswer in Hall. simpl in Hall.
      by rewrite Hstatus in Hall.
  - (* failed *)
    cbn [settled statusRequests resultRequested reported].
    split; [lia |]. split; [done |]. split; [done |]. split.
    + intros k Hk Hbefore Hstop. destruct k as [| k].
      * rewrite Nat.add_0_r, Hanswer. simpl. rewrite Hstatus.
        split; [done | lia].
      * specialize (Hbefore 0 ltac:(lia)).
        rewrite Nat.add_0_r, Hanswer in Hbefore. simpl in Hbefore.
        by rewrite Hstatus in Hbefore.
    + intros Hall. specialize (Hall 0 ltac:(lia)).
      rewrite Nat.add_0_r, Hanswer in Hall. simpl in Hall.
      by rewrite Hstatus in Hall.
Qed.

(** X18. The app's wait for a job stops at the first status answer that is
    not [queued] or [processing]: it then asks for the result (status
    [complete]), or throws the error of the job or "Analysis failed"
    (status [failed]), or throws the error of the request itself.  It
    makes no status request after that one and at most [maxAttempts] in
    all; when every answer says the job is still running it throws
    "Analysis timed out".  The result is asked for only after a status
    answer [complete], and no progress above 100 is reported. *)
Theorem pollAnalysisCompletion_first_settled (maxAttempts : nat) :
  let run := pollAnalysisCompletion maxAttempts in
  statusRequests run ≤ maxAttempts
  ∧ Forall (λ p, p ≤ 100) (reported run)
  ∧ (resultRequested run = true →
     ∃ k status, k < maxAttempts ∧ getAnalysisStatus k = Ok status
                 ∧ s_status status = complete)
  ∧ (∀ k, k < maxAttempts →
          (∀ i, i < k → stillRunning (getAnalysisStatus i) = true) →
          stillRunning (getAnalysisStatus k) = false →
          settled run = settle (getAnalysisStatus k)
          ∧ statusRequests run = S k)
  ∧ ((∀ i, i < maxAttempts → stillRunning (getAnalysisStatus i) = true) →
     settled run = Throw (ErrorObj "Analysis timed out")
     ∧ statusRequests run = maxAttempts
     ∧ resultRequested run = false).
Proof. apply (pollLoop_spec maxAttempts 0). Qed.

End Poll.

(** ** routes/sessions.ts *)

Record SessionView :=
  { v_sessionId : string;
    v_date : Z;
    v_primaryFocus : string;
    v_correctionCategory : Gemini.JsValue;
    v_improvementNote : option string }.

(** The fields sent for a session; the date stays the timestamp it is
    the ISO text of. *)
Definition formatSession (session : SessionSummary.t) : SessionView :=
  {| v_sessionId := SessionSummary.sessionId session;
     v_date := SessionSummary.date session;
     v_primaryFocus := SessionSummary.primaryFocus session;
     v_correctionCategory := SessionSummary.correctionCategory session;
     v_improvementNote := SessionSummary.improvementNote session |}.

(** [parseInt(req.query.limit) || 50], for a query parameter that is
    absent or no number ([None]) or a natural number. *)
Definition sessionLimit (queryLimit : option nat) : nat :=
  match queryLimit with
  | Some (S n) => S n
  | _ => 50
  end.

(** [router.get("/")] of the sessions *)
Definition getSessionsRoute (reqDeviceId reqUserId : option string)
    (queryLimit : option nat) : M (Reply (list SessionView)) :=
  try_catch
    (if negb (truthy reqDeviceId) then
       throw (createError "Device ID required" "UNAUTHORIZED" 401)
     else
       let deviceId := default "" reqDeviceId in
       let limit := sessionLimit queryLimit in
       let! sessions := getUserSessions deviceId reqUserId limit in
       ret (Json200 (formatSession <$> sessions)))
    (replyError "SESSIONS_FAILED" "Failed to fetch sessions").

(** The sessions of a device in the collection. *)
Definition sessionsOf (deviceId : string) (w : World) : list SessionSummary.t :=
  filter (λ s, SessionSummary.deviceId s = deviceId)
         (snd <$> map_to_list (sessions w)).

Section SessionsRoute.

Lemma sessionsQuery_all docs deviceId limit s :
  length (filter (λ s, SessionSummary.deviceId s = deviceId)
                 (snd <$> map_to_list docs)) ≤ limit →
  s ∈ filter (λ s, SessionSummary.deviceId s = deviceId)
             (snd <$> map_to_list docs) →
  s ∈ sessionsQuery docs deviceId limit.
Proof.
  intros Hfew Hs. unfold sessionsQuery.
  rewrite take_ge.
  - by rewrite merge_sort_Permutation.
  - by rewrite merge_sort_Permutation.
Qed.

(** X19. The session history a device is sent holds sessions of that
    device only, the later ones first, at most as many as the limit asks
    for (50 without a limit, and for the limit 0); every session of the
    device is in it when the device has no more than that.  The route
    writes nothing. *)
Theorem getSessionsRoute_own_sessions (dev : string) (userId : option string)
    (queryLimit : option nat) (w : World)
    (Hdev : dev ≠ "")
    (Hup : head (faults w) ≠ Some true) :
  let r := getSessionsRoute (Some dev) userId queryLimit w in
  analyses r.2 = analyses w ∧ users r.2 = users w ∧ sessions r.2 = sessions w
  ∧ tasks r.2 = tasks w ∧ trace r.2 = trace w
  ∧ ∃ listed,
      r.1 = Ok (Json200 (formatSession <$> listed))
      ∧ length listed ≤ sessionLimit queryLimit
      ∧ StronglySorted newer_first listed
      ∧ (∀ s, s ∈ listed → s ∈ sessionsOf dev w)
      ∧ (length (sessionsOf dev w) ≤ sessionLimit queryLimit →
         ∀ s, s ∈ sessionsOf dev w → s ∈ listed).
Proof.
  intros r. subst r. apply truthy_Some in Hdev.
  as_post (getSessionsRoute (Some dev) userId queryLimit) w.
  unfold getSessionsRoute, getUserSessions, replyError, createError.
  rewrite Hdev. cbn [negb].
  change (default "" (Some dev)) with dev.
  repeat first [ post_step | post_case ]; world_simpl; try done.
  repeat (split; [done |]).
  exists (sessionsQuery (sessions w) dev (sessionLimit queryLimit)).
  split; [done |].
  destruct (sessionsQuery_spec (sessions w) dev (sessionLimit queryLimit))
    as (Hlen & Hsorted & Hown).
  split; [done |]. split; [done |]. split.
  - intros s Hs. unfold sessionsQuery in Hs.
    apply subseteq_take in Hs. by rewrite merge_sort_Permutation in Hs.
  - intros Hfew s Hs. by apply sessionsQuery_all.
Qed.

Lemma getSessionsRoute_own_sessions_witness :
  ∃ listed,
    (getSessionsRoute (Some "dev") None (Some 0) historyWorld).1
    = Ok (Json200 (formatSession <$> listed))
    ∧ length listed ≤ 50.
Proof.
  assert ("dev" ≠ "") as Hdev by done.
  assert (head (faults historyWorld) ≠ Some true) as Hup by (by vm_compute).
  destruct (getSessionsRoute_own_sessions "dev" None (Some 0) historyWorld
              Hdev Hup)
    as (_ & _ & _ & _ & _ & listed & Hreply & Hlen & _).
  exists listed. split; [exact Hreply | exact Hlen].
Defined.

End SessionsRoute.

(** ** Starting a job: who is refused *)

Section StartRefused.

(** X22. Only the owner starts a job.  A start call for an unknown id is
    answered 404 and one for the job of another device 403; when Cloud
    Tasks refuses the task of the owner's job the answer is 500.  In all
    three cases no task is enqueued and nothing is written. *)
Theorem postAnalysisStart_owner_only (id dev : string) (createTaskOk : bool)
    (w : World)
    (Hdev : dev ≠ "")
    (Hup : head (faults w) ≠ Some true) :
  let r := postAnalysisStart id (Some dev) createTaskOk w in
  match analyses w !! id with
  | None =>
      r.1 = Ok {| statusCode := 404;
                  body := ErrorBody "NOT_FOUND" "Analysis not found" |}
      ∧ tasks r.2 = tasks w ∧ trace r.2 = trace w
  | Some job =>
      if decide (AnalysisJob.deviceId job = dev) then
        createTaskOk = false →
        AnalysisJob.status job = queued ∨ AnalysisJob.status job = failed →
        r.1 = Ok {| statusCode := 500;
                    body := ErrorBody "ANALYSIS_FAILED"
                                      "Failed to start analysis" |}
        ∧ tasks r.2 = tasks w ∧ trace r.2 = trace w
      else
        r.1 = Ok {| statusCode := 403;
                    body := ErrorBody "UNAUTHORIZED" "Unauthorized" |}
        ∧ tasks r.2 = tasks w ∧ trace r.2 = trace w
  end.
Proof.
  intros r. subst r. apply truthy_Some in Hdev.
  as_post (postAnalysisStart id (Some dev) createTaskOk) w.
  unfold postAnalysisStart, getAnalysisJob, enqueueAnalysisTask, handleError,
    createError.
  rewrite Hdev. cbn [negb default].
  do 4 post_step; [done |]. post_step. world_simpl.
  destruct (analyses w !! id) as [job |] eqn:Hjob.
  - destruct (decide (AnalysisJob.deviceId job = dev)) as [Hown | Hown].
    + rewrite bool_decide_eq_true_2 by done. cbn [negb].
      destruct (AnalysisJob.status job) eqn:Hst;
        repeat first [ post_step | post_case ];
        intros Hrefused [Hq | Hf]; try done; by subst createTaskOk.
    + rewrite bool_decide_eq_false_2 by done. cbn [negb].
      repeat first [ post_step | post_case ]; done.
  - repeat first [ post_step | post_case ]; done.
Qed.

(** Another device asks to start job J. *)
Lemma postAnalysisStart_owner_only_witness :
  (postAnalysisStart "J" (Some "other") true createdWorld).1
  = Ok {| statusCode := 403;
          body := ErrorBody "UNAUTHORIZED" "Unauthorized" |}
  ∧ tasks (postAnalysisStart "J" (Some "other") true createdWorld).2 = [].
Proof.
  assert ("other" ≠ "") as Hdev by done.
  assert (head (faults createdWorld) ≠ Some true) as Hup by (by vm_compute).
  pose proof (postAnalysisStart_owner_only "J" "other" true createdWorld
                Hdev Hup) as Hcase.
  eassert (analyses createdWorld !! "J" = Some _) as Hjob
    by (vm_compute; reflexivity).
  rewrite Hjob in Hcase.
  rewrite decide_False in Hcase by (by vm_compute).
  destruct Hcase as (Hreply & Htasks & _).
  split; [exact Hreply |]. rewrite Htasks. by vm_compute.
Defined.

End StartRefused.

(** ** src/state/coachingStore.ts : what the app keeps on the device *)

Module CoachingStore.

(** A [CoachingSession], with the feedback reduced to its category. *)
Record CoachingSession :=
  { id : string;
    date : string;
    videoUri : string;
    correctionCategory : string }.

Record State :=
  { sessions : list CoachingSession;
    currentFocus : option string;
    focusStartDate : option string;
    sessionsOnCurrentFocus : Z;
    totalAnalyses : Z;
    isPro : bool }.

Definition FREE_ANALYSIS_LIMIT : Z := 1.

Definition initial : State :=
  {| sessions := []; currentFocus := None; focusStartDate := None;
     sessionsOnCurrentFocus := 0; totalAnalyses := 0; isPro := false |}.

(** The actions that change the store; [SetCurrentFocus] carries the
    time it reads. *)
Inductive Action :=
| AddSession (session : CoachingSession)
| DeleteSession (sessionId : string)
| SetCurrentFocus (category : string) (now : string)
| IncrementFocusSessions
| ResetFocusSessions
| SetPro (pro : bool)
| ResetStore.

Definition act (action : Action) (state : State) : State :=
  match action with
  | AddSession session =>
      {| sessions := session :: sessions state;
         currentFocus := currentFocus state;
         focusStartDate := focusStartDate state;
         sessionsOnCurrentFocus := sessionsOnCurrentFocus state;
         totalAnalyses := totalAnalyses state + 1;
         isPro := isPro state |}
  | DeleteSession sessionId =>
      {| sessions := filter (λ s, id s ≠ sessionId) (sessions state);
         currentFocus := currentFocus state;
         focusStartDate := focusStartDate state;
         sessionsOnCurrentFocus := sessionsOnCurrentFocus state;
         totalAnalyses := totalAnalyses state;
         isPro := isPro state |}
  | SetCurrentFocus category now =>
      {| sessions := sessions state;
         currentFocus := Some category;
         focusStartDate := Some now;
         sessionsOnCurrentFocus := 1;
         totalAnalyses := totalAnalyses state;
         isPro := isPro state |}
  | IncrementFocusSessions =>
      {| sessions := sessions state;
         currentFocus := currentFocus state;
         focusStartDate := focusStartDate state;
         sessionsOnCurrentFocus := sessionsOnCurrentFocus state + 1;
         totalAnalyses := totalAnalyses state;
         isPro := isPro state |}
  | ResetFocusSessions =>
      {| sessions := sessions state;
         currentFocus := currentFocus state;
         focusStartDate := None;
         sessionsOnCurrentFocus := 0;
         totalAnalyses := totalAnalyses state;
         isPro := isPro state |}
  | SetPro pro =>
      {| sessions := sessions state;
         currentFocus := currentFocus state;
         focusStartDate := focusStartDate state;
         sessionsOnCurrentFocus := sessionsOnCurrentFocus state;
         totalAnalyses := totalAnalyses state;
         isPro := pro |}
  | ResetStore => initial
  end.

Definition getRecentSessions (limit : nat) (state : State)
    : list CoachingSession :=
  take limit (sessions state).

Definition canAnalyze (state : State) : bool :=
  if isPro state then true
  else bool_decide (totalAnalyses state < FREE_ANALYSIS_LIMIT)%Z.

(** [None] stands for [Infinity]. *)
Definition getRemainingFreeAnalyses (state : State) : option Z :=
  if isPro state then None
  else Some (Z.max 0 (FREE_ANALYSIS_LIMIT - totalAnalyses state)).

End CoachingStore.

Section Store.

Definition storeAfter (actions : list CoachingStore.Action)
    : CoachingStore.State :=
  foldl (λ state action, CoachingStore.act action state)
        CoachingStore.initial actions.

Lemma storeAfter_snoc actions action :
  storeAfter (actions ++ [action])
  = CoachingStore.act action (storeAfter actions).
Proof. unfold storeAfter. by rewrite foldl_app. Qed.

Lemma storeAfter_counts actions :
  (Z.of_nat (length (CoachingStore.sessions (storeAfter actions)))
   ≤ CoachingStore.totalAnalyses (storeAfter actions))%Z.
Proof.
  induction actions as [| action actions IH] using rev_ind; [done |].
  rewrite storeAfter_snoc.
  destruct action; cbn [CoachingStore.act CoachingStore.sessions
                        CoachingStore.totalAnalyses]; try done.
  - rewrite length_cons. lia.
  - pose proof (length_filter
                  (λ s, CoachingStore.id s ≠ sessionId)
                  (CoachingStore.sessions (storeAfter actions))). lia.
Qed.

(** X23. The app's own count of analyses is never given back.  After any
    sequence of store actions the count is at least the number of
    sessions kept; deleting a session changes neither the count nor
    whether the app allows another analysis; the app allows one exactly
    when the user is pro or free analyses remain, and for a user who is
    not pro that is over once a session is in the store.  A session just
    added is the first of the recent ones. *)
Theorem coachingStore_usage_never_refunded
    (actions : list CoachingStore.Action) :
  let state := storeAfter actions in
  (Z.of_nat (length (CoachingStore.sessions state))
   ≤ CoachingStore.totalAnalyses state)%Z
  ∧ (∀ sessionId,
       CoachingStore.canAnalyze
         (CoachingStore.act (CoachingStore.DeleteSession sessionId) state)
       = CoachingStore.canAnalyze state)
  ∧ (CoachingStore.canAnalyze state = true
     ↔ CoachingStore.isPro state = true
       ∨ ∃ remaining,
           CoachingStore.getRemainingFreeAnalyses state = Some remaining
           ∧ (0 < remaining)%Z)
  ∧ (CoachingStore.isPro state = false →
     CoachingStore.sessions state ≠ [] →
     CoachingStore.canAnalyze state = false)
  ∧ (∀ session limit,
       head (CoachingStore.getRecentSessions (S limit)
               (CoachingStore.act (CoachingStore.AddSession session) state))
       = Some session).
Proof.
  intros state. pose proof (storeAfter_counts actions) as Hcount.
  fold state in Hcount.
  split; [done |]. split; [done |].
  unfold CoachingStore.canAnalyze, CoachingStore.getRemainingFreeAnalyses,
    CoachingStore.FREE_ANALYSIS_LIMIT.
  split.
  - destruct (CoachingStore.isPro state); [split; auto |].
    rewrite bool_decide_eq_true. split.
    + intros Hfree. right. eexists. split; [done |]. lia.
    + intros [? | (remaining & [= <-] & Hpos)]; [done | lia].
  - split; [| done].
    intros -> Hsome. apply bool_decide_eq_false.
    destruct (CoachingStore.sessions state); [done |].
    rewrite length_cons in Hcount. lia.
Qed.

End Store.
